(** * Timeline links of a Communication

    A shallow embedding of the timeline-link logic of
    [frappe/core/doctype/communication/communication.py]:
    [add_link], [remove_link], [deduplicate_dynamic_links],
    [validate_circular_links], [get_timeline_parent_doc] and the circular
    check of [validate_reference].

    Python lists are Rocq lists, a list mutated while it is iterated is a
    list together with the iterator's index, exceptions are a sum type, and
    the persistence layer is a journal of the calls made to it. *)

From stdpp Require Import base list strings gmap.

#[local] Set Warnings "-clear-no-such-hyp".

(** ** Data model *)

(** A row of the [dynamic_links] child table.  The code reads and writes
    exactly these two fields. *)
Record DynamicLink := mkLink {
  link_doctype : string;
  link_name : string
}.

#[global] Instance DynamicLink_eq_dec : EqDecision DynamicLink.
Proof. solve_decision. Defined.

(** The attributes of a Communication that the modelled methods touch.
    An attribute that is [None] in Python is the empty string here: the
    code only tests these attributes for truth and for equality. *)
Record Communication := mkCommunication {
  name : string;
  reference_doctype : string;
  reference_name : string;
  reference_owner : string;
  communication_type : string;
  dynamic_links : list DynamicLink
}.

(** Python truth value of a string attribute. *)
Definition truthy (s : string) : bool := bool_decide (s ≠ "").

(** The pair [(l.link_doctype, l.link_name)]. *)
Definition pair_of (l : DynamicLink) : string * string :=
  (link_doctype l, link_name l).

Definition link_of (t : string * string) : DynamicLink :=
  mkLink t.1 t.2.

Definition set_dynamic_links (ls : list DynamicLink) (c : Communication)
  : Communication :=
  {| name := name c;
     reference_doctype := reference_doctype c;
     reference_name := reference_name c;
     reference_owner := reference_owner c;
     communication_type := communication_type c;
     dynamic_links := ls |}.

Definition set_reference_owner (o : string) (c : Communication)
  : Communication :=
  {| name := name c;
     reference_doctype := reference_doctype c;
     reference_name := reference_name c;
     reference_owner := o;
     communication_type := communication_type c;
     dynamic_links := dynamic_links c |}.

(** ** Persistence *)

(** Modelled from the spec: the persistence layer ([Document.save]) is an
    external collaborator, "a persistence save operation with an optional
    permission-bypass flag".  A call to it is recorded in a journal, with
    the value of [ignore_permissions] it was given. *)
Inductive Event :=
| Save (ignore_permissions : bool).

#[global] Instance Event_eq_dec : EqDecision Event.
Proof. solve_decision. Defined.

(** The document a method runs on, and the persistence calls made so far. *)
Record Session := mkSession {
  self : Communication;
  journal : list Event
}.

Definition save (ignore_permissions : bool) (s : Session) : Session :=
  {| self := self s; journal := journal s ++ [Save ignore_permissions] |}.

(** Modelled from the spec: [Document.append] adds a new child row, built
    from the given fields, at the end of the child table. *)
Definition append_dynamic_link (l : DynamicLink) (s : Session) : Session :=
  {| self := set_dynamic_links (dynamic_links (self s) ++ [l]) (self s);
     journal := journal s |}.

(** ** [add_link] *)

Definition add_link (link_doctype link_name : string) (autosave : bool)
    (s : Session) : Session :=
  let s := append_dynamic_link (mkLink link_doctype link_name) s in
  if autosave then save true s else s.

(** ** [remove_link] *)

(** [l.link_doctype == link_doctype and l.link_name == link_name] *)
Definition link_matches (link_doctype0 link_name0 : string) (l : DynamicLink)
  : bool :=
  bool_decide (link_doctype l = link_doctype0)
  && bool_decide (link_name l = link_name0).

(** [self.dynamic_links.remove(l)], for the row [l] the iterator returned
    from position [i].  Rows are objects that compare by identity, and
    each occurs once in the list, so [list.remove] deletes the row at [i]. *)
Definition list_remove_row (i : nat) (ls : list DynamicLink)
  : list DynamicLink :=
  delete i ls.

(** The [for l in self.dynamic_links] loop.  A Python list iterator is an
    index into the live list: each round reads position [i], stops when it
    is past the end, and moves to [i + 1], whatever the body did to the
    list.  [fuel] bounds the number of rounds. *)
Fixpoint remove_link_loop (fuel i : nat) (link_doctype0 link_name0 : string)
    (ls : list DynamicLink) : list DynamicLink :=
  match fuel with
  | 0 => ls
  | S fuel =>
    match ls !! i with
    | None => ls
    | Some l =>
      if link_matches link_doctype0 link_name0 l
      then remove_link_loop fuel (S i) link_doctype0 link_name0
             (list_remove_row i ls)
      else remove_link_loop fuel (S i) link_doctype0 link_name0 ls
    end
  end.

(** The rounds of the loop, read off the list: after a matching row is
    removed the iterator steps over the row that took its place. *)
Fixpoint remove_link_skipping (dt nm : string) (ls : list DynamicLink)
  : list DynamicLink :=
  match ls with
  | [] => []
  | l :: ls =>
    if link_matches dt nm l then
      match ls with
      | [] => []
      | l' :: ls => l' :: remove_link_skipping dt nm ls
      end
    else l :: remove_link_skipping dt nm ls
  end.

(** The loop makes at most [length ls] rounds (see
    [remove_link_loop_fuel]), so that much fuel runs it to its end. *)
Definition remove_link (link_doctype0 link_name0 : string)
    (autosave ignore_permissions : bool) (s : Session) : Session :=
  let ls := dynamic_links (self s) in
  let s :=
    {| self := set_dynamic_links
                 (remove_link_loop (length ls) 0 link_doctype0 link_name0 ls)
                 (self s);
       journal := journal s |} in
  if autosave then save ignore_permissions s else s.

(** ** [deduplicate_dynamic_links] *)

(** The first loop: [links] collects the pairs not seen before, and
    [duplicate] records whether some pair was seen twice. *)
Fixpoint collect_links (rows : list DynamicLink)
    (links : list (string * string)) (duplicate : bool)
  : list (string * string) * bool :=
  match rows with
  | [] => (links, duplicate)
  | l :: rows =>
    let t := pair_of l in
    if bool_decide (t ∈ links)
    then collect_links rows links true
    else collect_links rows (links ++ [t]) duplicate
  end.

(** [del self.dynamic_links[:]] *)
Definition clear_dynamic_links (s : Session) : Session :=
  {| self := set_dynamic_links [] (self s); journal := journal s |}.

Definition deduplicate_dynamic_links (s : Session) : Session :=
  match dynamic_links (self s) with
  | [] => s
  | _ :: _ =>
    let '(links, duplicate) := collect_links (dynamic_links (self s)) [] false in
    if duplicate
    then foldl (fun s l => add_link l.1 l.2 false s)
               (clear_dynamic_links s) links
    else s
  end.

(** What the spec says deduplication computes: walk the sequence once with
    a set of seen pairs, drop an entry whose pair was seen, keep and record
    the others. *)
Fixpoint spec_deduplicate (seen : gset (string * string))
    (links : list DynamicLink) : list DynamicLink :=
  match links with
  | [] => []
  | l :: links =>
    if bool_decide (pair_of l ∈ seen)
    then spec_deduplicate seen links
    else l :: spec_deduplicate ({[pair_of l]} ∪ seen) links
  end.

(** ** The writes of [deduplicate_dynamic_links] *)

(** A write to [self.dynamic_links] or to the persistence layer. *)
Inductive Mutation :=
| Cleared
| Appended (l : DynamicLink)
| Saved (ignore_permissions : bool).

(** [add_link], with the writes it makes added to those made so far:
    the [self.append] of the new row and, with [autosave], the
    [self.save]. *)
Definition add_link_traced (link_doctype link_name : string)
    (autosave : bool) (st : Session * list Mutation)
  : Session * list Mutation :=
  (add_link link_doctype link_name autosave st.1,
   st.2 ++ [Appended (mkLink link_doctype link_name)]
        ++ (if autosave then [Saved true] else [])).

(** [deduplicate_dynamic_links], with the writes it makes: none when the
    list is empty or [duplicate] stayed [False]; else the
    [del self.dynamic_links[:]] and the writes of each [add_link]. *)
Definition deduplicate_dynamic_links_traced (s : Session)
  : Session * list Mutation :=
  match dynamic_links (self s) with
  | [] => (s, [])
  | _ :: _ =>
    let '(links, duplicate) := collect_links (dynamic_links (self s)) [] false in
    if duplicate
    then foldl (fun st l => add_link_traced l.1 l.2 false st)
               (clear_dynamic_links s, [Cleared]) links
    else (s, [])
  end.

(** ** Exceptions *)

(** The exceptions the modelled code can raise.  [frappe.throw (msg, exc)]
    raises [exc] with the message [msg]; without [exc] it raises a
    validation error. *)
Inductive Exception :=
| CircularLinkingError (msg : string)
| ValidationError (msg : string)
| UnboundLocalError
| AttributeError.

Inductive Result (A : Type) :=
| Ok (a : A)
| Raise (e : Exception).

Arguments Ok {A} a.
Arguments Raise {A} e.

Definition bind {A B : Type} (m : Result A) (k : A -> Result B) : Result B :=
  match m with
  | Ok a => k a
  | Raise e => Raise e
  end.

Notation "'do' x <- m ; k" := (bind m (fun x => k))
  (at level 10, x name, m at level 100, k at level 200).

Definition timeline_message : string :=
  "Please make sure the Timeline Communication Docs are not circularly linked.".

Definition reference_message : string :=
  "Please make sure the Reference Communication Docs are not circularly linked.".

Definition child_table_message (c : Communication) : string :=
  "Cannot create a " +:+ communication_type c
    +:+ " against a child document: " +:+ reference_doctype c.

Section RecordStore.

(** The external record store, [frappe.get_doc (doctype, name)]: the
    record, or nothing when there is none.  Every lookup the modelled
    code makes is for a Communication. *)
Variable get_doc : string -> string -> option Communication.

(** [frappe.db.get_value (doctype, name, "owner")] *)
Variable get_owner : string -> string -> string.

(** [frappe.get_meta (doctype).istable] *)
Variable istable : string -> bool.

(** [get_timeline_parent_doc]: [parent_doc] is bound only when both
    arguments are true, and the [return] reads it in either case. *)
Definition get_timeline_parent_doc (link_doctype link_name : string)
  : Result (option Communication) :=
  if truthy link_doctype && truthy link_name
  then Ok (get_doc link_doctype link_name)
  else Raise UnboundLocalError.

(** [link.link_doctype == "Communication"] *)
Definition is_communication (l : DynamicLink) : bool :=
  bool_decide (link_doctype l = "Communication").

(** The Communication links of a list, in their order. *)
Definition communication_links (links : list DynamicLink)
  : list DynamicLink :=
  filter (λ l, is_communication l = true) links.

(** *** [validate_circular_links] *)

(** The loop over [circular_level_2.dynamic_links].  It returns the value
    of [circular_linking] when the loop is left: by [break] on a match,
    or at the end of the list. *)
Fixpoint level_3_loop (self_name : string) (ref_links : list DynamicLink)
    (circular_linking : bool) : Result bool :=
  match ref_links with
  | [] => Ok circular_linking
  | ref_link :: ref_links =>
    if is_communication ref_link then
      do circular_level_3 <-
        get_timeline_parent_doc (link_doctype ref_link) (link_name ref_link);
      match circular_level_3 with
      | Some d =>
        if bool_decide (name d = self_name)
        then Ok true
        else level_3_loop self_name ref_links circular_linking
      | None => level_3_loop self_name ref_links circular_linking
      end
    else level_3_loop self_name ref_links circular_linking
  end.

(** The loop over [circular_level_1.dynamic_links]; the test of
    [circular_linking] and the [throw] close each of its rounds. *)
Fixpoint level_2_loop (self_name : string) (links : list DynamicLink)
    (circular_linking : bool) : Result unit :=
  match links with
  | [] => Ok tt
  | link :: links =>
    do circular_linking <-
      (if is_communication link then
         do circular_level_2 <-
           get_timeline_parent_doc (link_doctype link) (link_name link);
         match circular_level_2 with
         | Some d => level_3_loop self_name (dynamic_links d) circular_linking
         | None => Ok circular_linking
         end
       else Ok circular_linking);
    if circular_linking : bool
    then Raise (CircularLinkingError timeline_message)
    else level_2_loop self_name links circular_linking
  end.

(** The loop over [self.dynamic_links]. *)
Fixpoint level_1_loop (self_name : string) (links : list DynamicLink)
  : Result unit :=
  match links with
  | [] => Ok tt
  | dynamic_link :: links =>
    do _ <- (if is_communication dynamic_link then
            do circular_level_1 <-
              get_timeline_parent_doc (link_doctype dynamic_link)
                                      (link_name dynamic_link);
            match circular_level_1 with
            | Some d => level_2_loop self_name (dynamic_links d) false
            | None => Ok tt
            end
          else Ok tt);
    level_1_loop self_name links
  end.

Definition validate_circular_links (c : Communication) : Result unit :=
  level_1_loop (name c) (dynamic_links c).

(** Every Communication link of the list names its target: the list
    has no row for which [get_timeline_parent_doc] fails. *)
Definition well_named (links : list DynamicLink) : Prop :=
  ∀ l, l ∈ links → is_communication l = true → link_name l ≠ "".

(** The same, of every record of the store. *)
Definition store_well_named : Prop :=
  ∀ dt n d, get_doc dt n = Some d → well_named (dynamic_links d).

(** *** [validate_reference] *)

(** Modelled from the spec: [get_parent_doc], of [frappe.core.utils],
    resolves the primary reference of a document through the record
    store; a document without a reference, or whose reference is not in
    the store, has no parent document. *)
Definition get_parent_doc (doc : Communication) : option Communication :=
  if truthy (reference_doctype doc) && truthy (reference_name doc)
  then get_doc (reference_doctype doc) (reference_name doc)
  else None.

(** The [while doc.reference_doctype == "Communication"] loop.  It
    answers the value of [circular_linking] when the loop is left,
    [Raise AttributeError] when the parent of [doc] is missing and its
    [name] is read, and [None] when [fuel] rounds did not end it. *)
Fixpoint reference_loop (fuel : nat) (self_name : string)
    (doc : Communication) : option (Result bool) :=
  match fuel with
  | 0 => None
  | S fuel =>
    if bool_decide (reference_doctype doc = "Communication") then
      match get_parent_doc doc with
      | None => Some (Raise AttributeError)
      | Some parent =>
        if bool_decide (name parent = self_name)
        then Some (Ok true)
        else reference_loop fuel self_name parent
      end
    else Some (Ok false)
  end.

(** [validate_reference] answers the validated document, whose
    [reference_owner] it may have set. *)
Definition validate_reference (fuel : nat) (c : Communication)
  : option (Result Communication) :=
  if truthy (reference_doctype c) && truthy (reference_name c) then
    let c :=
      if truthy (reference_owner c) then c
      else set_reference_owner
             (get_owner (reference_doctype c) (reference_name c)) c in
    if istable (reference_doctype c) then
      Some (Raise (ValidationError (child_table_message c)))
    else if bool_decide (reference_doctype c = "Communication") then
      match get_parent_doc c with
      | None => Some (Raise AttributeError)
      | Some doc =>
        match reference_loop fuel (name c) doc with
        | None => None
        | Some (Raise e) => Some (Raise e)
        | Some (Ok true) =>
          Some (Raise (CircularLinkingError reference_message))
        | Some (Ok false) => Some (Ok c)
        end
      end
    else Some (Ok c)
  else Some (Ok c).

End RecordStore.

(** ** Stores of examples *)

(** A Communication with timeline links and no primary reference. *)
Definition timeline_doc (n : string) (links : list DynamicLink)
  : Communication :=
  mkCommunication n "" "" "" "Communication" links.

(** A Communication whose primary reference is the Communication
    [parent]. *)
Definition reply_doc (n parent : string) : Communication :=
  mkCommunication n "Communication" parent "" "Communication" [].

(** A record store that holds the given Communications, each under its
    name. *)
Definition store_of (records : list Communication) (doctype n : string)
  : option Communication :=
  if bool_decide (doctype = "Communication")
  then snd <$> list_find (λ d, name d = n) records
  else None.

(** ** Rows left by [remove_link] *)

(** Two rows next to each other both match the pair. *)
Fixpoint adjacent_matches (link_doctype0 link_name0 : string)
    (ls : list DynamicLink) : bool :=
  match ls with
  | l :: ls =>
    match ls with
    | l' :: _ =>
      (link_matches link_doctype0 link_name0 l
       && link_matches link_doctype0 link_name0 l')
      || adjacent_matches link_doctype0 link_name0 ls
    | [] => false
    end
  | [] => false
  end.

(** ** [get_links] *)

Definition get_links (c : Communication) : list DynamicLink :=
  dynamic_links c.

(** ** Paths of timeline links *)

(** A Communication link of [links] that the store resolves to [d]. *)
Definition resolves_to (get_doc : string → string → option Communication)
    (links : list DynamicLink) (d : Communication) : Prop :=
  ∃ l, l ∈ links ∧ is_communication l = true
       ∧ get_doc "Communication" (link_name l) = Some d.

(** Three Communication links, each resolved by the store, lead from [c]
    to a record with the name of [c]. *)
Definition returns_in_three_hops
    (get_doc : string → string → option Communication) (c : Communication)
  : Prop :=
  ∃ d1 d2 d3,
    resolves_to get_doc (dynamic_links c) d1
    ∧ resolves_to get_doc (dynamic_links d1) d2
    ∧ resolves_to get_doc (dynamic_links d2) d3
    ∧ name d3 = name c.

(** ** The [reference_owner] step of [validate_reference] *)

(** The document after [validate_reference] has set a missing
    [reference_owner]. *)
Definition with_reference_owner (get_owner : string → string → string)
    (c : Communication) : Communication :=
  if truthy (reference_owner c) then c
  else set_reference_owner
         (get_owner (reference_doctype c) (reference_name c)) c.

(** ** The other attributes of a Communication *)

(** A Communication with the attributes that the delivery and lifecycle
    methods read and write, next to those of [Communication]. *)
Record CommunicationDoc := mkCommunicationDoc {
  fields : Communication;
  communication_medium : string;
  sent_or_received : string;
  sender : string;
  sender_full_name : string;
  status : string;
  email_status : string;
  delivery_status : string
}.

(** [self.as_dict ()], and the [broadcast] key that [after_insert] may
    add to it. *)
Record Payload := mkPayload {
  body : CommunicationDoc;
  broadcast : bool
}.

Definition as_dict (d : CommunicationDoc) : Payload :=
  {| body := d; broadcast := false |}.

(** The calls the lifecycle methods make to the framework, in the order
    they are made.  An argument that is not passed is the empty string. *)
Inductive Effect :=
| PublishRealtime (event : string) (message : Payload)
    (doctype docname user : string) (after_commit : bool)
| DbSetValue (doctype docname fieldname value : string)
| DbSet (fieldname value : string)
| NotifyUpdate
| DbCommit.

Definition is_publish (e : Effect) : bool :=
  match e with
  | PublishRealtime _ _ _ _ _ _ => true
  | _ => false
  end.

(** ** [after_insert] and [on_trash] *)

Definition after_insert (session_user : string) (d : CommunicationDoc)
  : list Effect :=
  let c := fields d in
  if negb (truthy (reference_doctype c) && truthy (reference_name c)) then []
  else
    (if bool_decide (reference_doctype c = "Communication")
        && bool_decide (sent_or_received d = "Sent")
     then [DbSetValue "Communication" (reference_name c) "status" "Replied"]
     else [])
    ++
    (if bool_decide (communication_type c = "Communication") then
       [PublishRealtime "new_communication" (as_dict d)
          (reference_doctype c) (reference_name c) "" true]
     else if bool_decide (communication_type c ∈ ["Chat"; "Notification"; "Bot"])
     then
       if bool_decide (reference_name c = session_user) then
         [PublishRealtime "new_message"
            {| body := d; broadcast := true |} "" "" "" true]
       else
         [PublishRealtime "new_message" (as_dict d)
            "" "" (reference_name c) true]
     else []).

Definition on_trash (d : CommunicationDoc) : list Effect :=
  let c := fields d in
  if bool_decide (communication_type c = "Communication") then
    [PublishRealtime "delete_communication" (as_dict d)
       (reference_doctype c) (reference_name c) "" true]
  else [].

(** ** [set_status] *)

Definition set_status_field (v : string) (d : CommunicationDoc)
  : CommunicationDoc :=
  {| fields := fields d;
     communication_medium := communication_medium d;
     sent_or_received := sent_or_received d;
     sender := sender d;
     sender_full_name := sender_full_name d;
     status := v;
     email_status := email_status d;
     delivery_status := delivery_status d |}.

Definition set_email_status (v : string) (d : CommunicationDoc)
  : CommunicationDoc :=
  {| fields := fields d;
     communication_medium := communication_medium d;
     sent_or_received := sent_or_received d;
     sender := sender d;
     sender_full_name := sender_full_name d;
     status := status d;
     email_status := v;
     delivery_status := delivery_status d |}.

Definition set_delivery_status_field (v : string) (d : CommunicationDoc)
  : CommunicationDoc :=
  {| fields := fields d;
     communication_medium := communication_medium d;
     sent_or_received := sent_or_received d;
     sender := sender d;
     sender_full_name := sender_full_name d;
     status := status d;
     email_status := email_status d;
     delivery_status := v |}.

(** [is_new] is [self.is_new ()]; [spam_rule s] tells whether
    [frappe.db.get_value ("Email Rule", {"email_id": s, "is_spam": 1})]
    finds a rule. *)
Definition set_status (is_new : bool) (spam_rule : string → bool)
    (d : CommunicationDoc) : CommunicationDoc :=
  if negb is_new then d
  else
    let c := fields d in
    let d :=
      if truthy (reference_doctype c) && truthy (reference_name c)
      then set_status_field "Linked" d
      else if bool_decide (communication_type c = "Communication")
      then set_status_field "Open" d
      else set_status_field "Closed" d in
    let email_rule := spam_rule (sender d) in
    if bool_decide (communication_type c = "Communication")
       && bool_decide (communication_medium d = "Email")
       && bool_decide (sent_or_received d = "Sent")
       && email_rule
    then set_email_status "Spam" d
    else d.

(** ** [set_sender_full_name] *)

Definition set_sender (v : string) (d : CommunicationDoc) : CommunicationDoc :=
  {| fields := fields d;
     communication_medium := communication_medium d;
     sent_or_received := sent_or_received d;
     sender := v;
     sender_full_name := sender_full_name d;
     status := status d;
     email_status := email_status d;
     delivery_status := delivery_status d |}.

Definition set_sender_full_name_field (v : string) (d : CommunicationDoc)
  : CommunicationDoc :=
  {| fields := fields d;
     communication_medium := communication_medium d;
     sent_or_received := sent_or_received d;
     sender := sender d;
     sender_full_name := v;
     status := status d;
     email_status := email_status d;
     delivery_status := delivery_status d |}.

(** [administrator_full_name] and [administrator_email] are the values
    [frappe.db.get_value ("User", "Administrator", ...)] finds;
    [validate_email_address s] is the call with [throw=True], which
    returns or raises; [parse_addr] answers the name and the address, the
    empty string for a part that is [None]; [get_fullname] is the
    framework's. *)
Definition set_sender_full_name (session_user : string)
    (administrator_full_name administrator_email : string)
    (validate_email_address : string → Result unit)
    (parse_addr : string → string * string)
    (get_fullname : string → string)
    (d : CommunicationDoc) : Result CommunicationDoc :=
  if negb (truthy (sender_full_name d)) && truthy (sender d) then
    if bool_decide (sender d = "Administrator") then
      Ok (set_sender administrator_email
            (set_sender_full_name_field administrator_full_name d))
    else if bool_decide (sender d = "Guest") then
      Ok (set_sender "" (set_sender_full_name_field (sender d) d))
    else
      do _ <- (if bool_decide (sent_or_received d = "Sent")
               then validate_email_address (sender d)
               else Ok tt);
      let '(sender_name, sender_email) := parse_addr (sender d) in
      let sender_name :=
        if bool_decide (sender_name = sender_email) then "" else sender_name in
      let d := set_sender sender_email d in
      Ok (set_sender_full_name_field
            (if bool_decide (session_user ≠ "Administrator")
             then (if truthy sender_name then sender_name
                   else get_fullname session_user)
             else "")
            d)
  else Ok d.

(** ** [set_delivery_status] *)

(** [Counter (statuses)]: a dictionary from each status to the number of
    times it occurs. *)
Definition Counter (statuses : list string) : gmap string nat :=
  foldl (λ m s, <[s := S (default 0 (m !! s))]> m) ∅ statuses.

(** Python truth value of [status_counts.get (key)]. *)
Definition counted (status_counts : gmap string nat) (key : string) : bool :=
  match status_counts !! key with
  | Some n => negb (n =? 0)
  | None => false
  end.

(** [email_queue n] is the result of the query for the statuses of the
    Email Queue rows of the Communication [n]. *)
Definition set_delivery_status (email_queue : string → list string)
    (commit : bool) (d : CommunicationDoc)
  : CommunicationDoc * list Effect :=
  let delivery_status := "" in
  let status_counts := Counter (email_queue (name (fields d))) in
  if bool_decide (sent_or_received d = "Received") then (d, [])
  else
    let delivery_status :=
      if counted status_counts "Not Sent" || counted status_counts "Sending"
      then "Sending"
      else if counted status_counts "Error" then "Error"
      else if counted status_counts "Expired" then "Expired"
      else if counted status_counts "Sent" then "Sent"
      else delivery_status in
    if truthy delivery_status then
      let d := set_delivery_status_field delivery_status d in
      (d,
       [DbSet "delivery_status" delivery_status;
        PublishRealtime "update_communication" (as_dict d)
          (reference_doctype (fields d)) (reference_name (fields d)) "" true;
        NotifyUpdate]
       ++ (if commit then [DbCommit] else []))
    else (d, []).

(** ** Permissions *)

(** [frappe_has_permission doctype docname] is the truth value of
    [frappe.has_permission (doctype, ptype="read", doc=docname)].  The
    function answers [True] or nothing. *)
Definition has_permission (frappe_has_permission : string → string → bool)
    (doc : Communication) (ptype user : string) : option bool :=
  if bool_decide (ptype = "read") then
    if bool_decide (reference_doctype doc = "Communication")
       && bool_decide (reference_name doc = name doc)
    then None
    else if truthy (reference_doctype doc) && truthy (reference_name doc)
    then
      if frappe_has_permission (reference_doctype doc) (reference_name doc)
      then Some true
      else None
    else None
  else None.

Definition double_quote : string := String (Ascii.ascii_of_nat 34) EmptyString.

(** [get_roles] is [frappe.get_roles]; [user_email_accounts u] lists the
    [email_account] of the User Email rows of [u], in the order of the
    query. *)
Definition get_permission_query_conditions_for_communication
    (session_user : string) (get_roles : string → list string)
    (user_email_accounts : string → list string) (user : string)
  : option string :=
  let user := if negb (truthy user) then session_user else user in
  let roles := get_roles user in
  if bool_decide ("Super Email User" ∈ roles)
     || bool_decide ("System Manager" ∈ roles)
  then None
  else
    let accounts := user_email_accounts user in
    match accounts with
    | [] => Some "tabCommunication.communication_medium!='Email'"
    | _ :: _ =>
      let email_accounts :=
        (λ account, double_quote +:+ account +:+ double_quote) <$> accounts in
      Some ("tabCommunication.email_account in ("
              +:+ String.concat "," email_accounts +:+ ")")
    end.

(** * Properties *)

(** ** Records *)

Lemma link_of_pair_of (l : DynamicLink) : link_of (pair_of l) = l.
Proof. by destruct l. Qed.

Lemma pair_of_link_of (t : string * string) : pair_of (link_of t) = t.
Proof. by destruct t. Qed.

Lemma set_dynamic_links_id (c : Communication) :
  set_dynamic_links (dynamic_links c) c = c.
Proof. by destruct c. Qed.

Lemma set_dynamic_links_twice (ls ls' : list DynamicLink) (c : Communication) :
  set_dynamic_links ls (set_dynamic_links ls' c) = set_dynamic_links ls c.
Proof. done. Qed.

(** ** [add_link] *)

(** C8: [add_link] puts a new row with the given pair at the end of
    [dynamic_links], whatever the list already holds (also a row with the
    same pair) and whatever [autosave] is; the rows that were there keep
    their positions. *)
Theorem add_link_appends (dt nm : string) (autosave : bool) (s : Session) :
  dynamic_links (self (add_link dt nm autosave s))
    = dynamic_links (self s) ++ [mkLink dt nm]
  ∧ (∀ (i : nat) (l : DynamicLink),
        dynamic_links (self s) !! i = Some l →
        dynamic_links (self (add_link dt nm autosave s)) !! i = Some l)
  ∧ dynamic_links (self (add_link dt nm autosave s))
      !! length (dynamic_links (self s)) = Some (mkLink dt nm).
Proof.
  assert (Heq : dynamic_links (self (add_link dt nm autosave s))
                = dynamic_links (self s) ++ [mkLink dt nm])
    by (by destruct autosave).
  rewrite Heq. split_and!.
  - done.
  - intros i l Hi. by apply lookup_app_l_Some.
  - by rewrite list_lookup_middle.
Qed.

(** C9: [add_link] calls [save] once, with [ignore_permissions=True], when
    [autosave] is set, and does not call it otherwise. *)
Theorem add_link_autosave (dt nm : string) (s : Session) :
  journal (add_link dt nm true s) = journal s ++ [Save true]
  ∧ journal (add_link dt nm false s) = journal s.
Proof. done. Qed.

(** ** [remove_link] *)

(** Fuel beyond the rounds the iterator can make changes nothing. *)
Lemma remove_link_loop_fuel (fuel extra i : nat) (dt nm : string)
    (ls : list DynamicLink) :
  length ls ≤ i + fuel →
  remove_link_loop (fuel + extra) i dt nm ls = remove_link_loop fuel i dt nm ls.
Proof.
  revert i ls. induction fuel as [|fuel IH]; intros i ls Hlen; simpl.
  - destruct extra as [|extra]; [done|]. simpl.
    by rewrite lookup_ge_None_2 by lia.
  - destruct (ls !! i) as [l|] eqn:Hl; [|done].
    destruct (link_matches dt nm l).
    + apply IH. unfold list_remove_row.
      rewrite length_delete by eauto.
      apply lookup_lt_Some in Hl. lia.
    + apply IH. lia.
Qed.

Lemma remove_link_loop_skipping (fuel : nat) (dt nm : string)
    (done_rows ls : list DynamicLink) :
  length ls ≤ fuel →
  remove_link_loop fuel (length done_rows) dt nm (done_rows ++ ls)
    = done_rows ++ remove_link_skipping dt nm ls.
Proof.
  revert done_rows ls.
  induction fuel as [fuel IH] using lt_wf_ind; intros done_rows ls Hlen.
  assert (Hend : ∀ n, remove_link_loop n (length done_rows) dt nm done_rows
                      = done_rows).
  { intros [|n]; simpl; [done|]. by rewrite lookup_ge_None_2 by lia. }
  assert (Hnext : ∀ l, S (length done_rows) = length (done_rows ++ [l])).
  { intros l. rewrite length_app. simpl. lia. }
  destruct ls as [|l ls].
  { simpl. rewrite !(right_id_L [] (++)). apply Hend. }
  destruct fuel as [|fuel]; simpl in Hlen; [lia|].
  cbn [remove_link_loop remove_link_skipping].
  rewrite list_lookup_middle by done.
  destruct (link_matches dt nm l).
  - unfold list_remove_row. rewrite delete_middle.
    destruct ls as [|l' ls].
    + rewrite (right_id_L [] (++)).
      destruct fuel; simpl; [done|]. by rewrite lookup_ge_None_2 by lia.
    + simpl in Hlen.
      rewrite (Hnext l'), (cons_middle l' done_rows ls), (assoc_L (++)).
      rewrite IH by lia. by rewrite <- (assoc_L (++)).
  - rewrite (Hnext l), (cons_middle l done_rows ls), (assoc_L (++)).
    rewrite IH by lia. by rewrite <- (assoc_L (++)).
Qed.

Lemma remove_link_dynamic_links (dt nm : string) (autosave ip : bool)
    (s : Session) :
  dynamic_links (self (remove_link dt nm autosave ip s))
    = remove_link_skipping dt nm (dynamic_links (self s)).
Proof.
  unfold remove_link.
  pose proof (remove_link_loop_skipping (length (dynamic_links (self s)))
                dt nm [] (dynamic_links (self s))) as Hloop.
  simpl in Hloop. destruct autosave; simpl; by rewrite Hloop.
Qed.

Lemma remove_link_skipping_match (dt nm : string) (l l' : DynamicLink)
    (ls : list DynamicLink) :
  link_matches dt nm l = true →
  remove_link_skipping dt nm (l :: l' :: ls)
    = l' :: remove_link_skipping dt nm ls.
Proof. intros Hm. cbn [remove_link_skipping]. by rewrite Hm. Qed.

Lemma remove_link_skipping_other (dt nm : string) (l : DynamicLink)
    (ls : list DynamicLink) :
  link_matches dt nm l = false →
  remove_link_skipping dt nm (l :: ls) = l :: remove_link_skipping dt nm ls.
Proof. intros Hm. cbn [remove_link_skipping]. by rewrite Hm. Qed.

(** The rows that do not match are all kept, in their order. *)
Lemma remove_link_skipping_others (dt nm : string) (ls : list DynamicLink) :
  filter (λ l, link_matches dt nm l = false) (remove_link_skipping dt nm ls)
    = filter (λ l, link_matches dt nm l = false) ls.
Proof.
  enough (Hboth :
    filter (λ l, link_matches dt nm l = false) (remove_link_skipping dt nm ls)
      = filter (λ l, link_matches dt nm l = false) ls
    ∧ ∀ l0, filter (λ l, link_matches dt nm l = false)
              (remove_link_skipping dt nm (l0 :: ls))
            = filter (λ l, link_matches dt nm l = false) (l0 :: ls))
    by apply Hboth.
  induction ls as [|l ls [IH0 IH1]].
  - split; [done|]. intros l0. simpl.
    destruct (link_matches dt nm l0) eqn:Hm.
    + by rewrite filter_cons_False by congruence.
    + done.
  - split; [apply IH1|]. intros l0.
    destruct (link_matches dt nm l0) eqn:Hm.
    + rewrite (remove_link_skipping_match dt nm l0 l ls Hm).
      rewrite (filter_cons_False _ l0) by congruence.
      rewrite !filter_cons. by rewrite IH0.
    + rewrite (remove_link_skipping_other dt nm l0 (l :: ls) Hm).
      rewrite !(filter_cons _ l0). by rewrite IH1.
Qed.

Lemma remove_link_others (dt nm : string) (autosave ip : bool) (s : Session) :
  filter (λ l, link_matches dt nm l = false)
         (dynamic_links (self (remove_link dt nm autosave ip s)))
    = filter (λ l, link_matches dt nm l = false) (dynamic_links (self s)).
Proof.
  by rewrite remove_link_dynamic_links, remove_link_skipping_others.
Qed.

(** A single matching row is removed, wherever it is. *)
Lemma remove_link_skipping_single (dt nm : string)
    (before after : list DynamicLink) :
  Forall (λ l, link_matches dt nm l = false) (before ++ after) →
  remove_link_skipping dt nm (before ++ mkLink dt nm :: after)
    = before ++ after.
Proof.
  intros Hothers. apply Forall_app in Hothers as [Hbefore Hafter].
  assert (Hrest : ∀ ls, Forall (λ l, link_matches dt nm l = false) ls →
                        remove_link_skipping dt nm ls = ls).
  { induction 1 as [|l ls Hl _ IH]; [done|].
    by rewrite remove_link_skipping_other, IH. }
  assert (Hm : link_matches dt nm (mkLink dt nm) = true).
  { unfold link_matches. simpl. by rewrite !bool_decide_eq_true_2. }
  induction Hbefore as [|l ls Hl _ IH].
  - destruct after as [|l' after].
    + simpl. by rewrite Hm.
    + apply Forall_cons in Hafter as [_ Hafter].
      rewrite app_nil_l, remove_link_skipping_match by done.
      by rewrite Hrest.
  - rewrite <- !app_comm_cons.
    by rewrite remove_link_skipping_other, IH.
Qed.

Lemma remove_link_single (dt nm : string) (autosave ip : bool) (s : Session)
    (before after : list DynamicLink) :
  dynamic_links (self s) = before ++ mkLink dt nm :: after →
  Forall (λ l, link_matches dt nm l = false) (before ++ after) →
  dynamic_links (self (remove_link dt nm autosave ip s)) = before ++ after.
Proof.
  intros Hlinks Hothers. rewrite remove_link_dynamic_links, Hlinks.
  by apply remove_link_skipping_single.
Qed.

(** C1, on the code: with two matching rows next to each other,
    [remove_link] removes the first and steps over the second, which stays
    in [dynamic_links]. *)
Theorem remove_link_leaves_adjacent_match :
  let s := mkSession
             (mkCommunication "COMM-1" "" "" "" "Communication"
                [mkLink "Contact" "c1"; mkLink "Contact" "c1"]) [] in
  dynamic_links (self (remove_link "Contact" "c1" false true s))
    = [mkLink "Contact" "c1"]
  ∧ mkLink "Contact" "c1"
      ∈ dynamic_links (self (remove_link "Contact" "c1" false true s)).
Proof.
  assert (Heq : dynamic_links
            (self (remove_link "Contact" "c1" false true
               (mkSession
                  (mkCommunication "COMM-1" "" "" "" "Communication"
                     [mkLink "Contact" "c1"; mkLink "Contact" "c1"]) [])))
          = [mkLink "Contact" "c1"]) by (vm_compute; reflexivity).
  intros s. subst s. rewrite Heq. split; [done|]. apply list_elem_of_here.
Qed.

(** ** [deduplicate_dynamic_links] *)

Section Deduplicate.

Implicit Types (rows : list DynamicLink) (links : list (string * string)).
Implicit Types (seen : gset (string * string)) (s : Session).

Lemma list_to_set_snoc links (t : string * string) :
  list_to_set (links ++ [t]) =@{gset (string * string)}
    {[t]} ∪ list_to_set links.
Proof. apply set_eq. intros x. set_solver. Qed.

(** The pairs the first loop collects are the pairs of the rows that the
    spec's walk keeps. *)
Lemma collect_links_fst rows links (duplicate : bool) :
  (collect_links rows links duplicate).1
    = links ++ (pair_of <$> spec_deduplicate (list_to_set links) rows).
Proof.
  revert links duplicate.
  induction rows as [|l rows IH]; intros links duplicate; simpl.
  { by rewrite (right_id_L [] (++)). }
  destruct (decide (pair_of l ∈ links)) as [Hin|Hin].
  - rewrite bool_decide_eq_true_2 by done.
    rewrite (bool_decide_eq_true_2 (pair_of l ∈ list_to_set links))
      by (by apply elem_of_list_to_set).
    apply IH.
  - rewrite bool_decide_eq_false_2 by done.
    rewrite (bool_decide_eq_false_2 (pair_of l ∈ list_to_set links))
      by (by rewrite elem_of_list_to_set).
    rewrite IH, list_to_set_snoc.
    simpl. by rewrite <- (assoc_L (++)).
Qed.

(** The walk keeps rows with distinct pairs, none of them seen before,
    and it keeps a row for each pair not seen before. *)
Lemma spec_deduplicate_pairs seen rows :
  NoDup (pair_of <$> spec_deduplicate seen rows)
  ∧ ∀ t, t ∈ pair_of <$> spec_deduplicate seen rows
         ↔ t ∈ pair_of <$> rows ∧ t ∉ seen.
Proof.
  revert seen. induction rows as [|l rows IH]; intros seen; simpl.
  { split; [constructor|]. intros t. rewrite elem_of_nil. tauto. }
  destruct (IH seen) as [Hnd Hin].
  destruct (IH ({[pair_of l]} ∪ seen)) as [Hnd' Hin'].
  case_bool_decide as Hseen.
  - split; [done|]. intros t. rewrite Hin, elem_of_cons.
    split; [tauto|]. intros [[->|Ht] Hn]; tauto.
  - split.
    + simpl. constructor; [|done]. rewrite Hin'. set_solver.
    + intros t. simpl. rewrite !elem_of_cons, Hin'.
      destruct (decide (t = pair_of l)) as [->|Hne]; set_solver.
Qed.

Lemma spec_deduplicate_sublist seen rows :
  spec_deduplicate seen rows `sublist_of` rows.
Proof.
  revert seen. induction rows as [|l rows IH]; intros seen; simpl; [done|].
  case_bool_decide.
  - by apply sublist_cons.
  - by apply sublist_skip.
Qed.

(** Rows with distinct, unseen pairs are all kept. *)
Lemma spec_deduplicate_unique seen rows :
  NoDup (pair_of <$> rows) →
  (∀ t, t ∈ pair_of <$> rows → t ∉ seen) →
  spec_deduplicate seen rows = rows.
Proof.
  revert seen. induction rows as [|l rows IH]; intros seen Hnd Hseen; [done|].
  simpl in *. apply NoDup_cons in Hnd as [Hl Hnd].
  rewrite bool_decide_eq_false_2 by (apply Hseen; left).
  f_equal. apply IH; [done|].
  intros t Ht. rewrite elem_of_union, elem_of_singleton.
  intros [->|Hin]; [done|].
  by apply (Hseen t); [right|].
Qed.

(** The first loop raises [duplicate] exactly when it drops a row. *)
Lemma collect_links_snd rows links (duplicate : bool) :
  (collect_links rows links duplicate).2
    = duplicate
      || bool_decide (spec_deduplicate (list_to_set links) rows ≠ rows).
Proof.
  revert links duplicate.
  induction rows as [|l rows IH]; intros links duplicate; simpl.
  { by destruct duplicate. }
  destruct (decide (pair_of l ∈ links)) as [Hin|Hin].
  - rewrite bool_decide_eq_true_2 by done.
    rewrite (bool_decide_eq_true_2 (pair_of l ∈ list_to_set links))
      by (by apply elem_of_list_to_set).
    rewrite IH. simpl.
    rewrite (bool_decide_eq_true_2 (_ ≠ l :: rows)); [by rewrite orb_true_r|].
    intros Heq.
    pose proof (sublist_length _ _ (spec_deduplicate_sublist
                                      (list_to_set links) rows)) as Hlen.
    rewrite Heq in Hlen. simpl in Hlen. lia.
  - rewrite bool_decide_eq_false_2 by done.
    rewrite (bool_decide_eq_false_2 (pair_of l ∈ list_to_set links))
      by (by rewrite elem_of_list_to_set).
    rewrite IH, list_to_set_snoc.
    f_equal. apply bool_decide_ext. split; intros Hne Heq; apply Hne; congruence.
Qed.

(** The second loop: [add_link] for each collected pair. *)
Lemma add_links_foldl links s :
  foldl (λ s l, add_link l.1 l.2 false s) s links
    = {| self := set_dynamic_links
                   (dynamic_links (self s) ++ (link_of <$> links)) (self s);
         journal := journal s |}.
Proof.
  revert s. induction links as [|t links IH]; intros s; simpl.
  - rewrite (right_id_L [] (++)), set_dynamic_links_id. by destruct s.
  - rewrite IH. simpl. by rewrite <- (assoc_L (++)).
Qed.

Lemma fmap_link_of_pair_of rows : link_of <$> (pair_of <$> rows) = rows.
Proof.
  induction rows as [|l rows IH]; [done|].
  by rewrite !fmap_cons, IH, link_of_pair_of.
Qed.

(** The method, in terms of the spec's walk. *)
Lemma deduplicate_dynamic_links_spec s :
  deduplicate_dynamic_links s
    = {| self := set_dynamic_links
                   (spec_deduplicate ∅ (dynamic_links (self s))) (self s);
         journal := journal s |}.
Proof.
  unfold deduplicate_dynamic_links.
  destruct (dynamic_links (self s)) as [|l rows] eqn:Hrows.
  { simpl. rewrite <- Hrows, set_dynamic_links_id. by destruct s. }
  pose proof (collect_links_fst (l :: rows) [] false) as Hfst.
  pose proof (collect_links_snd (l :: rows) [] false) as Hsnd.
  destruct (collect_links (l :: rows) [] false) as [links duplicate].
  simpl in Hfst, Hsnd. subst links.
  destruct duplicate.
  - rewrite add_links_foldl. simpl.
    by rewrite fmap_link_of_pair_of.
  - symmetry in Hsnd. apply bool_decide_eq_false in Hsnd.
    apply dec_stable in Hsnd. simpl. rewrite Hsnd, <- Hrows.
    rewrite set_dynamic_links_id. by destruct s.
Qed.

(** A list without a duplicate pair is left as it is. *)
Lemma deduplicate_dynamic_links_unique s :
  NoDup (pair_of <$> dynamic_links (self s)) →
  deduplicate_dynamic_links s = s.
Proof.
  intros Hnd. rewrite deduplicate_dynamic_links_spec.
  rewrite spec_deduplicate_unique; [|done|set_solver].
  rewrite set_dynamic_links_id. by destruct s.
Qed.

End Deduplicate.

(** C5: deduplicating twice gives the same session, hence the same
    [dynamic_links], as deduplicating once. *)
Theorem deduplicate_dynamic_links_idempotent (s : Session) :
  deduplicate_dynamic_links (deduplicate_dynamic_links s)
    = deduplicate_dynamic_links s.
Proof.
  apply deduplicate_dynamic_links_unique.
  rewrite deduplicate_dynamic_links_spec. simpl.
  apply spec_deduplicate_pairs.
Qed.

(** C6: after [deduplicate_dynamic_links] the list is what the spec's walk
    computes from the list before: each pair's first row, in the order of
    the list before (a sublist of it), no pair twice, and the same pairs
    as before. *)
Theorem deduplicate_dynamic_links_first_occurrences (s : Session) :
  let before := dynamic_links (self s) in
  let after := dynamic_links (self (deduplicate_dynamic_links s)) in
  after = spec_deduplicate ∅ before
  ∧ after `sublist_of` before
  ∧ NoDup (pair_of <$> after)
  ∧ ∀ t, t ∈ pair_of <$> after ↔ t ∈ pair_of <$> before.
Proof.
  intros before after. subst before after.
  rewrite deduplicate_dynamic_links_spec. simpl.
  destruct (spec_deduplicate_pairs ∅ (dynamic_links (self s))) as [Hnd Hin].
  split_and!.
  - done.
  - apply spec_deduplicate_sublist.
  - done.
  - intros t. rewrite Hin. set_solver.
Qed.

(** The writes of the second loop are the appends of the collected
    pairs, and its session is the one of the method. *)
Lemma add_links_traced_foldl (links : list (string * string))
    (st : Session * list Mutation) :
  foldl (λ st l, add_link_traced l.1 l.2 false st) st links
    = (foldl (λ s l, add_link l.1 l.2 false s) st.1 links,
       st.2 ++ ((λ l, Appended (link_of l)) <$> links)).
Proof.
  revert st. induction links as [|t links IH]; intros [s0 log]; simpl.
  - by rewrite (right_id_L [] (++)).
  - rewrite IH. simpl. by rewrite <- (assoc_L (++)).
Qed.

Lemma deduplicate_dynamic_links_traced_session (s : Session) :
  (deduplicate_dynamic_links_traced s).1 = deduplicate_dynamic_links s.
Proof.
  unfold deduplicate_dynamic_links_traced, deduplicate_dynamic_links.
  destruct (dynamic_links (self s)) as [|l rows]; [done|].
  destruct (collect_links (l :: rows) [] false) as [links [|]]; [|done].
  by rewrite add_links_traced_foldl.
Qed.

(** The first loop leaves [duplicate] at [False] exactly when no pair
    occurs twice. *)
Lemma collect_links_duplicate (rows : list DynamicLink) :
  (collect_links rows [] false).2 = false ↔ NoDup (pair_of <$> rows).
Proof.
  rewrite collect_links_snd. simpl. rewrite bool_decide_eq_false. split.
  - intros Hsame%dec_stable. rewrite <- Hsame.
    apply spec_deduplicate_pairs.
  - intros Hnd Hne. apply Hne.
    apply spec_deduplicate_unique; [done|set_solver].
Qed.

(** With a duplicate pair the list is cleared and rebuilt. *)
Lemma deduplicate_dynamic_links_traced_duplicate (s : Session) :
  ¬ NoDup (pair_of <$> dynamic_links (self s)) →
  ∃ links, (deduplicate_dynamic_links_traced s).2
           = Cleared :: ((λ l, Appended (link_of l)) <$> links).
Proof.
  intros Hdup. unfold deduplicate_dynamic_links_traced.
  destruct (dynamic_links (self s)) as [|l rows] eqn:Hrows.
  { exfalso. apply Hdup. constructor. }
  pose proof (collect_links_duplicate (l :: rows)) as Hflag.
  destruct (collect_links (l :: rows) [] false) as [links [|]].
  - exists links. by rewrite add_links_traced_foldl.
  - exfalso. apply Hdup. by apply Hflag.
Qed.

(** C7: on a list without a duplicate pair [deduplicate_dynamic_links]
    is a no-op: [duplicate] stays [False], so the method makes no write at
    all (the list is not cleared, no row is appended, nothing is saved),
    and the document, with its [dynamic_links], and the journal are the
    ones they were. *)
Theorem deduplicate_dynamic_links_noop (s : Session) :
  NoDup (pair_of <$> dynamic_links (self s)) →
  (collect_links (dynamic_links (self s)) [] false).2 = false
  ∧ deduplicate_dynamic_links_traced s = (s, [])
  ∧ deduplicate_dynamic_links s = s
  ∧ dynamic_links (self (deduplicate_dynamic_links s)) = dynamic_links (self s)
  ∧ journal (deduplicate_dynamic_links s) = journal s.
Proof.
  intros Hnd.
  assert (Hflag : (collect_links (dynamic_links (self s)) [] false).2 = false)
    by (by apply collect_links_duplicate).
  split; [done|]. split.
  - unfold deduplicate_dynamic_links_traced.
    destruct (dynamic_links (self s)) as [|l rows]; [done|].
    destruct (collect_links (l :: rows) [] false) as [links duplicate].
    simpl in Hflag. by rewrite Hflag.
  - by rewrite deduplicate_dynamic_links_unique.
Qed.

Lemma deduplicate_dynamic_links_noop_witness :
  let s := mkSession
             (mkCommunication "COMM-1" "" "" "" "Communication"
                [mkLink "Contact" "c1"; mkLink "Lead" "l1"]) [Save true] in
  NoDup (pair_of <$> dynamic_links (self s))
  ∧ (collect_links (dynamic_links (self s)) [] false).2 = false
  ∧ deduplicate_dynamic_links_traced s = (s, [])
  ∧ deduplicate_dynamic_links s = s
  ∧ dynamic_links (self (deduplicate_dynamic_links s)) = dynamic_links (self s)
  ∧ journal (deduplicate_dynamic_links s) = journal s.
Proof.
  intros s.
  assert (Hnd : NoDup (pair_of <$> dynamic_links (self s))).
  { apply (bool_decide_unpack _). vm_compute. exact I. }
  split; [exact Hnd|].
  apply (deduplicate_dynamic_links_noop s Hnd).
Defined.

(** ** [validate_circular_links] *)

Section CircularLinks.

Variable get_doc : string → string → option Communication.

Implicit Types (links : list DynamicLink) (l : DynamicLink).
Implicit Types (self_name : string) (d : Communication).

Lemma is_communication_doctype l :
  is_communication l = true → link_doctype l = "Communication".
Proof. apply bool_decide_eq_true_1. Qed.

(** A named Communication link is looked up in the store. *)
Lemma get_timeline_parent_doc_named l :
  is_communication l = true → link_name l ≠ "" →
  get_timeline_parent_doc get_doc (link_doctype l) (link_name l)
    = Ok (get_doc "Communication" (link_name l)).
Proof.
  intros Hc Hn. apply is_communication_doctype in Hc.
  unfold get_timeline_parent_doc, truthy. rewrite Hc.
  by rewrite (bool_decide_eq_true_2 (link_name l ≠ "")).
Qed.

Lemma well_named_cons l links :
  well_named (l :: links) →
  (is_communication l = true → link_name l ≠ "") ∧ well_named links.
Proof.
  intros Hwn. split.
  - apply Hwn. left.
  - intros l' Hl'. apply Hwn. by right.
Qed.

(** One round of each loop, for a link that is not a Communication link
    and for one that is. *)
Lemma level_3_loop_other self_name l links (b : bool) :
  is_communication l = false →
  level_3_loop get_doc self_name (l :: links) b
    = level_3_loop get_doc self_name links b.
Proof. intros Hc. simpl. by rewrite Hc. Qed.

Lemma level_3_loop_communication self_name l links (b : bool) :
  is_communication l = true → link_name l ≠ "" →
  level_3_loop get_doc self_name (l :: links) b
    = match get_doc "Communication" (link_name l) with
      | Some d =>
        if bool_decide (name d = self_name) then Ok true
        else level_3_loop get_doc self_name links b
      | None => level_3_loop get_doc self_name links b
      end.
Proof.
  intros Hc Hn. cbn [level_3_loop].
  by rewrite Hc, get_timeline_parent_doc_named.
Qed.

Lemma level_2_loop_other self_name l links :
  is_communication l = false →
  level_2_loop get_doc self_name (l :: links) false
    = level_2_loop get_doc self_name links false.
Proof. intros Hc. simpl. by rewrite Hc. Qed.

Lemma level_2_loop_communication self_name l links :
  is_communication l = true → link_name l ≠ "" →
  level_2_loop get_doc self_name (l :: links) false
    = do circular_linking <-
        match get_doc "Communication" (link_name l) with
        | Some d => level_3_loop get_doc self_name (dynamic_links d) false
        | None => Ok false
        end;
      if circular_linking : bool
      then Raise (CircularLinkingError timeline_message)
      else level_2_loop get_doc self_name links false.
Proof.
  intros Hc Hn. cbn [level_2_loop].
  rewrite Hc, get_timeline_parent_doc_named by done. cbn [bind].
  destruct (get_doc _ _) as [d|]; [|done].
  by destruct (level_3_loop _ _ _ _) as [[|]|].
Qed.

Lemma level_1_loop_other self_name l links :
  is_communication l = false →
  level_1_loop get_doc self_name (l :: links)
    = level_1_loop get_doc self_name links.
Proof. intros Hc. simpl. by rewrite Hc. Qed.

Lemma level_1_loop_communication self_name l links :
  is_communication l = true → link_name l ≠ "" →
  level_1_loop get_doc self_name (l :: links)
    = do _ <-
        match get_doc "Communication" (link_name l) with
        | Some d => level_2_loop get_doc self_name (dynamic_links d) false
        | None => Ok tt
        end;
      level_1_loop get_doc self_name links.
Proof.
  intros Hc Hn. cbn [level_1_loop].
  by rewrite Hc, get_timeline_parent_doc_named.
Qed.

(** On well-named lists the three loops raise nothing but the
    circular-linking error. *)
Lemma level_3_loop_ok self_name links (b : bool) :
  well_named links →
  ∃ b', level_3_loop get_doc self_name links b = Ok b'.
Proof.
  induction links as [|l links IH]; intros Hwn; [by exists b|].
  apply well_named_cons in Hwn as [Hl Hwn].
  destruct (is_communication l) eqn:Hc.
  - rewrite level_3_loop_communication by auto.
    destruct (get_doc _ _) as [d|]; [|by apply IH].
    case_bool_decide; [by exists true|by apply IH].
  - rewrite level_3_loop_other by done. by apply IH.
Qed.

Lemma level_2_loop_outcome self_name links :
  store_well_named get_doc → well_named links →
  level_2_loop get_doc self_name links false = Ok tt
  ∨ level_2_loop get_doc self_name links false
      = Raise (CircularLinkingError timeline_message).
Proof.
  intros Hstore. induction links as [|l links IH]; intros Hwn; [by left|].
  apply well_named_cons in Hwn as [Hl Hwn].
  destruct (is_communication l) eqn:Hc.
  - rewrite level_2_loop_communication by auto.
    destruct (get_doc _ _) as [d|] eqn:Hd; [|by apply IH].
    destruct (level_3_loop_ok self_name (dynamic_links d) false
                (Hstore _ _ _ Hd)) as [b' ->].
    destruct b'; [by right|by apply IH].
  - rewrite level_2_loop_other by done. by apply IH.
Qed.

(** A link to a record with the name of [self] ends the innermost loop
    with [circular_linking] set. *)
Lemma level_3_loop_hit self_name links l d (b : bool) :
  well_named links →
  l ∈ links → is_communication l = true →
  get_doc "Communication" (link_name l) = Some d → name d = self_name →
  level_3_loop get_doc self_name links b = Ok true.
Proof.
  intros Hwn Hin Hc Hd Hname.
  induction links as [|l' links IH]; [by apply elem_of_nil in Hin|].
  apply well_named_cons in Hwn as [Hl' Hwn].
  destruct (is_communication l') eqn:Hc'.
  - rewrite level_3_loop_communication by auto.
    apply elem_of_cons in Hin as [<-|Hin].
    + rewrite Hd. by rewrite bool_decide_eq_true_2.
    + destruct (get_doc _ (link_name l')) as [d'|]; [|by apply IH].
      case_bool_decide; [done|by apply IH].
  - rewrite level_3_loop_other by done.
    apply elem_of_cons in Hin as [<-|Hin]; [congruence|by apply IH].
Qed.

(** A link to a record whose list sets [circular_linking] makes the
    middle loop throw. *)
Lemma level_2_loop_hit self_name links l d :
  store_well_named get_doc → well_named links →
  l ∈ links → is_communication l = true →
  get_doc "Communication" (link_name l) = Some d →
  level_3_loop get_doc self_name (dynamic_links d) false = Ok true →
  level_2_loop get_doc self_name links false
    = Raise (CircularLinkingError timeline_message).
Proof.
  intros Hstore Hwn Hin Hc Hd Hhit.
  induction links as [|l' links IH]; [by apply elem_of_nil in Hin|].
  apply well_named_cons in Hwn as [Hl' Hwn].
  destruct (is_communication l') eqn:Hc'.
  - rewrite level_2_loop_communication by auto.
    apply elem_of_cons in Hin as [<-|Hin].
    + by rewrite Hd, Hhit.
    + destruct (get_doc _ (link_name l')) as [d'|] eqn:Hd'; [|by apply IH].
      destruct (level_3_loop_ok self_name (dynamic_links d') false
                  (Hstore _ _ _ Hd')) as [b' ->].
      destruct b'; [done|by apply IH].
  - rewrite level_2_loop_other by done.
    apply elem_of_cons in Hin as [<-|Hin]; [congruence|by apply IH].
Qed.

(** A link to a record whose list makes the middle loop throw makes the
    outer loop throw. *)
Lemma level_1_loop_hit self_name links l d :
  store_well_named get_doc → well_named links →
  l ∈ links → is_communication l = true →
  get_doc "Communication" (link_name l) = Some d →
  level_2_loop get_doc self_name (dynamic_links d) false
    = Raise (CircularLinkingError timeline_message) →
  level_1_loop get_doc self_name links
    = Raise (CircularLinkingError timeline_message).
Proof.
  intros Hstore Hwn Hin Hc Hd Hhit.
  induction links as [|l' links IH]; [by apply elem_of_nil in Hin|].
  apply well_named_cons in Hwn as [Hl' Hwn].
  destruct (is_communication l') eqn:Hc'.
  - rewrite level_1_loop_communication by auto.
    apply elem_of_cons in Hin as [<-|Hin].
    + by rewrite Hd, Hhit.
    + destruct (get_doc _ (link_name l')) as [d'|] eqn:Hd'; [|by apply IH].
      destruct (level_2_loop_outcome self_name (dynamic_links d') Hstore
                  (Hstore _ _ _ Hd')) as [-> | ->]; [by apply IH|done].
  - rewrite level_1_loop_other by done.
    apply elem_of_cons in Hin as [<-|Hin]; [congruence|by apply IH].
Qed.

(** The loops look at the Communication links only. *)
Lemma level_3_loop_filter self_name links (b : bool) :
  level_3_loop get_doc self_name links b
    = level_3_loop get_doc self_name (communication_links links) b.
Proof.
  unfold communication_links.
  induction links as [|l links IH]; [done|].
  rewrite filter_cons. case_decide as Hc.
  - cbn [level_3_loop]. by rewrite IH.
  - apply not_true_is_false in Hc. by rewrite level_3_loop_other.
Qed.

Lemma level_2_loop_filter self_name links :
  level_2_loop get_doc self_name links false
    = level_2_loop get_doc self_name (communication_links links) false.
Proof.
  unfold communication_links.
  induction links as [|l links IH]; [done|].
  rewrite filter_cons. case_decide as Hc.
  - cbn [level_2_loop]. rewrite Hc.
    destruct (get_timeline_parent_doc _ _ _) as [[d|]|e]; cbn [bind];
      [|done..].
    by destruct (level_3_loop _ _ _ _) as [[|]|].
  - apply not_true_is_false in Hc. by rewrite level_2_loop_other.
Qed.

Lemma level_1_loop_filter self_name links :
  level_1_loop get_doc self_name links
    = level_1_loop get_doc self_name (communication_links links).
Proof.
  unfold communication_links.
  induction links as [|l links IH]; [done|].
  rewrite filter_cons. case_decide as Hc.
  - cbn [level_1_loop]. by rewrite IH.
  - apply not_true_is_false in Hc. by rewrite level_1_loop_other.
Qed.

(** The loops on a list with one Communication link. *)
Lemma level_3_loop_single self_name links (n : string) d :
  communication_links links = [mkLink "Communication" n] → n ≠ "" →
  get_doc "Communication" n = Some d →
  level_3_loop get_doc self_name links false
    = Ok (bool_decide (name d = self_name)).
Proof.
  intros Hlinks Hn Hd.
  rewrite level_3_loop_filter, Hlinks, level_3_loop_communication by done.
  simpl. rewrite Hd. by case_bool_decide.
Qed.

Lemma level_2_loop_single self_name links (n : string) d :
  communication_links links = [mkLink "Communication" n] → n ≠ "" →
  get_doc "Communication" n = Some d →
  level_3_loop get_doc self_name (dynamic_links d) false = Ok false →
  level_2_loop get_doc self_name links false = Ok tt.
Proof.
  intros Hlinks Hn Hd Hmiss.
  rewrite level_2_loop_filter, Hlinks, level_2_loop_communication by done.
  simpl. by rewrite Hd, Hmiss.
Qed.

Lemma level_1_loop_single self_name links (n : string) d :
  communication_links links = [mkLink "Communication" n] → n ≠ "" →
  get_doc "Communication" n = Some d →
  level_2_loop get_doc self_name (dynamic_links d) false = Ok tt →
  level_1_loop get_doc self_name links = Ok tt.
Proof.
  intros Hlinks Hn Hd Hmiss.
  rewrite level_1_loop_filter, Hlinks, level_1_loop_communication by done.
  simpl. by rewrite Hd, Hmiss.
Qed.

(** A chain of three named links is reported: when a Communication link
    of [A] resolves to [B], one of [B] to
    [C], and one of [C] to a record with the name of [A], then
    [validate_circular_links] on [A] throws [CircularLinkingError] with
    its message, whatever other links the records have, as long as every
    Communication link met on the way names its target. *)
Theorem validate_circular_links_three_hops
    (A B C A' : Communication) (a b c : string) :
  store_well_named get_doc → well_named (dynamic_links A) →
  mkLink "Communication" b ∈ dynamic_links A →
  get_doc "Communication" b = Some B →
  mkLink "Communication" c ∈ dynamic_links B →
  get_doc "Communication" c = Some C →
  mkLink "Communication" a ∈ dynamic_links C →
  get_doc "Communication" a = Some A' →
  name A' = name A →
  validate_circular_links get_doc A
    = Raise (CircularLinkingError
        "Please make sure the Timeline Communication Docs are not circularly linked.").
Proof.
  intros Hstore HA HAB HB HBC HC HCA HA' Hname.
  unfold validate_circular_links.
  apply (level_1_loop_hit (name A) _ (mkLink "Communication" b) B);
    [done..|].
  apply (level_2_loop_hit (name A) _ (mkLink "Communication" c) C);
    [done|by apply (Hstore _ _ _ HB)|done..|].
  apply (level_3_loop_hit (name A) _ (mkLink "Communication" a) A');
    [by apply (Hstore _ _ _ HC)|done..].
Qed.


(** C10: when [A] and [B] are distinct and each has the one Communication
    link to the other, [validate_circular_links] on [A] throws nothing:
    the record reached with the third link is [B]. *)
Theorem validate_circular_links_two_hops
    (A B : Communication) (a b : string) :
  communication_links (dynamic_links A) = [mkLink "Communication" b] →
  get_doc "Communication" b = Some B →
  communication_links (dynamic_links B) = [mkLink "Communication" a] →
  get_doc "Communication" a = Some A →
  a ≠ "" → b ≠ "" →
  name B ≠ name A →
  validate_circular_links get_doc A = Ok tt
  ∧ level_3_loop get_doc (name A) (dynamic_links A) false
      = Ok (bool_decide (name B = name A)).
Proof.
  intros HA HB HBl HA' Ha Hb Hne.
  assert (H3 : level_3_loop get_doc (name A) (dynamic_links A) false
               = Ok (bool_decide (name B = name A)))
    by (by apply (level_3_loop_single _ _ b B)).
  split; [|done].
  unfold validate_circular_links.
  apply (level_1_loop_single _ _ b B); [done..|].
  apply (level_2_loop_single _ _ a A); [done..|].
  by rewrite H3, bool_decide_eq_false_2.
Qed.

End CircularLinks.

(** ** Stores of examples *)

Lemma store_of_elem (records : list Communication) (dt n : string)
    (d : Communication) :
  store_of records dt n = Some d → d ∈ records ∧ name d = n.
Proof.
  unfold store_of. case_bool_decide; [|done].
  destruct (list_find _ records) as [[i d']|] eqn:Hfind; [|done].
  intros [= <-]. apply list_find_Some in Hfind as (Hi & Hn & _).
  split; [|done]. by apply list_elem_of_lookup_2 in Hi.
Qed.

Lemma store_of_well_named (records : list Communication) :
  Forall (λ d, well_named (dynamic_links d)) records →
  store_well_named (store_of records).
Proof.
  intros Hall dt n d Hd. apply store_of_elem in Hd as [Hd _].
  by apply (proj1 (Forall_forall _ _) Hall).
Qed.

Lemma well_named_single (n : string) :
  n ≠ "" → well_named [mkLink "Communication" n].
Proof. intros Hn l Hl _. by apply list_elem_of_singleton in Hl as ->. Qed.

Lemma validate_circular_links_three_hops_witness :
  let A := timeline_doc "A" [mkLink "Contact" "c1"; mkLink "Communication" "B"] in
  let B := timeline_doc "B" [mkLink "Communication" "C"] in
  let C := timeline_doc "C" [mkLink "Communication" "A"] in
  validate_circular_links (store_of [A; B; C]) A
    = Raise (CircularLinkingError
        "Please make sure the Timeline Communication Docs are not circularly linked.").
Proof.
  intros A B C.
  apply (validate_circular_links_three_hops (store_of [A; B; C])
           A B C A "A" "B" "C").
  - apply store_of_well_named.
    repeat constructor; try (by apply well_named_single).
    intros l Hl Hc. apply elem_of_cons in Hl as [->|Hl]; [done|].
    by apply list_elem_of_singleton in Hl as ->.
  - intros l Hl Hc. apply elem_of_cons in Hl as [->|Hl]; [done|].
    by apply list_elem_of_singleton in Hl as ->.
  - apply list_elem_of_further, list_elem_of_here.
  - vm_compute. reflexivity.
  - apply list_elem_of_here.
  - vm_compute. reflexivity.
  - apply list_elem_of_here.
  - vm_compute. reflexivity.
  - reflexivity.
Defined.

(** C3, on the code: with the chain [A → B → C → A] in place and, before
    the link to [B], a Communication link without a name, the check ends
    in [get_timeline_parent_doc] with [UnboundLocalError], where
    [parent_doc] is read without having been bound, and the cycle is not
    reported; without that row the same chain is reported. *)
Theorem validate_circular_links_chain_after_unnamed_link :
  let A := timeline_doc "A" [mkLink "Communication" "";
                              mkLink "Communication" "B"] in
  let B := timeline_doc "B" [mkLink "Communication" "C"] in
  let C := timeline_doc "C" [mkLink "Communication" "A"] in
  let store := store_of [A; B; C] in
  (mkLink "Communication" "B" ∈ dynamic_links A
   ∧ store "Communication" "B" = Some B
   ∧ mkLink "Communication" "C" ∈ dynamic_links B
   ∧ store "Communication" "C" = Some C
   ∧ mkLink "Communication" "A" ∈ dynamic_links C
   ∧ store "Communication" "A" = Some A)
  ∧ validate_circular_links store A = Raise UnboundLocalError
  ∧ validate_circular_links store
      (timeline_doc "A" [mkLink "Communication" "B"])
    = Raise (CircularLinkingError
        "Please make sure the Timeline Communication Docs are not circularly linked.").
Proof.
  intros A B C store. split_and!.
  - apply list_elem_of_further, list_elem_of_here.
  - vm_compute. reflexivity.
  - apply list_elem_of_here.
  - vm_compute. reflexivity.
  - apply list_elem_of_here.
  - vm_compute. reflexivity.
  - vm_compute. reflexivity.
  - vm_compute. reflexivity.
Qed.


Lemma validate_circular_links_two_hops_witness :
  let A := timeline_doc "A" [mkLink "Communication" "B"] in
  let B := timeline_doc "B" [mkLink "Communication" "A"] in
  validate_circular_links (store_of [A; B]) A = Ok tt
  ∧ level_3_loop (store_of [A; B]) (name A) (dynamic_links A) false
      = Ok (bool_decide (name B = name A)).
Proof.
  intros A B.
  apply (validate_circular_links_two_hops (store_of [A; B]) A B "A" "B");
    solve [vm_compute; reflexivity | discriminate].
Defined.

(** ** [validate_reference] *)

Section Reference.

Variable get_doc : string → string → option Communication.
Variable get_owner : string → string → string.
Variable istable : string → bool.

Implicit Types (doc parent c : Communication) (self_name : string).

(** A parent document comes from the store. *)
Lemma get_parent_doc_stored doc parent :
  get_parent_doc get_doc doc = Some parent →
  get_doc (reference_doctype doc) (reference_name doc) = Some parent.
Proof. unfold get_parent_doc. by case_match. Qed.

Lemma get_parent_doc_set_reference_owner (o : string) c :
  get_parent_doc get_doc (set_reference_owner o c) = get_parent_doc get_doc c.
Proof. done. Qed.

(** A round of the loop that goes on to the parent. *)
Lemma reference_loop_step (fuel : nat) self_name doc parent :
  reference_doctype doc = "Communication" →
  get_parent_doc get_doc doc = Some parent →
  name parent ≠ self_name →
  reference_loop get_doc (S fuel) self_name doc
    = reference_loop get_doc fuel self_name parent.
Proof.
  intros Hdt Hp Hn. cbn [reference_loop].
  rewrite bool_decide_eq_true_2 by done. rewrite Hp.
  by rewrite bool_decide_eq_false_2.
Qed.

(** More fuel does not change an answer. *)
Lemma reference_loop_more_fuel (fuel extra : nat) self_name doc
    (r : Result bool) :
  reference_loop get_doc fuel self_name doc = Some r →
  reference_loop get_doc (fuel + extra) self_name doc = Some r.
Proof.
  revert doc. induction fuel as [|fuel IH]; intros doc; [done|].
  cbn [reference_loop Nat.add].
  case_bool_decide; [|done].
  destruct (get_parent_doc get_doc doc) as [parent|]; [|done].
  case_bool_decide; [done|]. apply IH.
Qed.

(** When every step to a parent other than [self] lowers a rank, the
    loop ends within as many rounds as the rank of the document it
    starts from, and one more. *)
Lemma reference_loop_ranked (rank : Communication → nat) self_name :
  (∀ dt n d p,
      get_doc dt n = Some d →
      reference_doctype d = "Communication" →
      get_parent_doc get_doc d = Some p →
      name p ≠ self_name →
      rank p < rank d) →
  ∀ (fuel : nat) dt n doc,
    get_doc dt n = Some doc → rank doc < fuel →
    ∃ r, reference_loop get_doc fuel self_name doc = Some r.
Proof.
  intros Hrank fuel.
  induction fuel as [|fuel IH]; intros dt n doc Hdoc Hlt; [lia|].
  destruct (decide (reference_doctype doc = "Communication")) as [Hdt|Hdt].
  - destruct (get_parent_doc get_doc doc) as [parent|] eqn:Hp.
    + destruct (decide (name parent = self_name)) as [Hn|Hn].
      * exists (Ok true). cbn [reference_loop].
        rewrite bool_decide_eq_true_2 by done. rewrite Hp.
        by rewrite bool_decide_eq_true_2.
      * rewrite (reference_loop_step fuel self_name doc parent) by done.
        apply (IH _ _ parent (get_parent_doc_stored _ _ Hp)).
        specialize (Hrank dt n doc parent Hdoc Hdt Hp Hn). lia.
    + exists (Raise AttributeError). cbn [reference_loop].
      rewrite bool_decide_eq_true_2 by done. by rewrite Hp.
  - exists (Ok false). cbn [reference_loop].
    by rewrite bool_decide_eq_false_2.
Qed.

(** C2, as the code has it: when the stored Communications can be ranked
    so that every step from one to its parent Communication, other than a
    step to the validated record, lowers the rank, the circular check of
    [validate_reference] ends: some number of rounds gives an answer. *)
Theorem validate_reference_terminates_ranked
    (rank : Communication → nat) c :
  reference_doctype c = "Communication" →
  (∀ dt n d p,
      get_doc dt n = Some d →
      reference_doctype d = "Communication" →
      get_parent_doc get_doc d = Some p →
      name p ≠ name c →
      rank p < rank d) →
  ∃ (fuel : nat) (r : Result Communication),
    validate_reference get_doc get_owner istable fuel c = Some r.
Proof.
  intros Hdt Hrank. unfold validate_reference.
  destruct (truthy (reference_doctype c) && truthy (reference_name c));
    [|by exists 0, (Ok c)].
  set (c' := if truthy (reference_owner c) then c else _).
  assert (Hsame : name c' = name c
                  ∧ reference_doctype c' = reference_doctype c
                  ∧ get_parent_doc get_doc c' = get_parent_doc get_doc c).
  { subst c'. by destruct (truthy (reference_owner c)). }
  destruct Hsame as (Hname & Hdt' & Hparent).
  destruct (istable (reference_doctype c')); [by eexists 0, _|].
  rewrite Hdt', Hparent, Hname.
  rewrite bool_decide_eq_true_2 by done.
  destruct (get_parent_doc get_doc c) as [doc|] eqn:Hdoc; [|by eexists 0, _].
  destruct (reference_loop_ranked rank (name c) Hrank (S (rank doc)) _ _ doc
              (get_parent_doc_stored _ _ Hdoc)) as [r Hr]; [lia|].
  exists (S (rank doc)). rewrite Hr.
  destruct r as [[|]|e]; by eexists.
Qed.

(** [validate_reference] has no answer where its loop has none. *)
Lemma validate_reference_no_answer (fuel : nat) c doc :
  reference_doctype c = "Communication" →
  reference_name c ≠ "" →
  istable "Communication" = false →
  get_parent_doc get_doc c = Some doc →
  reference_loop get_doc fuel (name c) doc = None →
  validate_reference get_doc get_owner istable fuel c = None.
Proof.
  intros Hdt Hn Htable Hdoc Hloop. unfold validate_reference.
  unfold truthy at 1 2. rewrite Hdt.
  rewrite (bool_decide_eq_true_2 (reference_name c ≠ "")) by done.
  cbn [andb bool_decide decide_rel]. simpl.
  set (c' := if truthy (reference_owner c) then c else _).
  assert (Hsame : name c' = name c
                  ∧ reference_doctype c' = reference_doctype c
                  ∧ get_parent_doc get_doc c' = get_parent_doc get_doc c).
  { subst c'. by destruct (truthy (reference_owner c)). }
  destruct Hsame as (Hname & Hdt' & Hparent).
  rewrite Hdt', Hdt, Htable, Hparent, Hdoc, Hname, Hloop.
  by rewrite bool_decide_eq_true_2.
Qed.

End Reference.

(** On the store where [B] is a reply to [C] and [C] a reply to [B], the
    loop started for another record goes round for ever. *)
Lemma reference_loop_cycle (fuel : nat) :
  let store := store_of [reply_doc "B" "C"; reply_doc "C" "B"] in
  reference_loop store fuel "A" (reply_doc "B" "C") = None
  ∧ reference_loop store fuel "A" (reply_doc "C" "B") = None.
Proof.
  intros store. induction fuel as [|fuel [IHB IHC]]; [done|].
  split.
  - by rewrite (reference_loop_step store fuel "A" _ (reply_doc "C" "B")).
  - by rewrite (reference_loop_step store fuel "A" _ (reply_doc "B" "C")).
Qed.

(** C2, as stated, fails: with [B] a reply to [C] and [C] a reply to [B]
    in the store, the circular check for a reply [A] to [B] has no answer,
    however many rounds it is given. *)
Lemma validate_reference_cycle_no_answer :
  ¬ ∃ (fuel : nat) (r : Result Communication),
      validate_reference
        (store_of [reply_doc "B" "C"; reply_doc "C" "B"])
        (λ _ _, "Administrator") (λ _, false) fuel (reply_doc "A" "B")
      = Some r.
Proof.
  intros (fuel & r & Hr).
  rewrite (validate_reference_no_answer _ _ _ fuel _ (reply_doc "B" "C"))
    in Hr; [done..|].
  apply reference_loop_cycle.
Qed.

Lemma validate_reference_terminates_ranked_witness :
  let A := reply_doc "A" "B" in
  let B := reply_doc "B" "A" in
  ∃ (fuel : nat) (r : Result Communication),
    validate_reference (store_of [A; B]) (λ _ _, "Administrator")
      (λ _, false) fuel A = Some r.
Proof.
  intros A B.
  apply (validate_reference_terminates_ranked (store_of [A; B])
           (λ _ _, "Administrator") (λ _, false)
           (λ d, if bool_decide (name d = "A") then 1 else 0) A).
  - reflexivity.
  - intros dt n d p Hd Hdt Hp Hn.
    apply store_of_elem in Hd as [Hd _].
    apply elem_of_cons in Hd as [->|Hd].
    + vm_compute in Hp. injection Hp as <-. vm_compute. lia.
    + apply list_elem_of_singleton in Hd as ->.
      vm_compute in Hp. injection Hp as <-. done.
Defined.

(** * Further properties *)

(** ** [remove_link], continued *)

(** Induction on lists that steps over two rows at a time. *)
Lemma list_pair_ind (P : list DynamicLink → Prop) :
  P [] →
  (∀ l, P [l]) →
  (∀ l l' ls, P ls → P (l' :: ls) → P (l :: l' :: ls)) →
  ∀ ls, P ls.
Proof.
  intros Hnil Hone Hstep ls.
  enough (Hboth : P ls ∧ ∀ l, P (l :: ls)) by apply Hboth.
  induction ls as [|l' ls [IH0 IH1]]; [by split|].
  split; [apply IH1|]. intros l. by apply Hstep.
Qed.

Lemma remove_link_skipping_sublist (dt nm : string) (ls : list DynamicLink) :
  remove_link_skipping dt nm ls `sublist_of` ls.
Proof.
  induction ls as [|l|l l' ls IH0 IH1] using list_pair_ind.
  - done.
  - simpl. destruct (link_matches dt nm l); [apply sublist_nil_l|done].
  - destruct (link_matches dt nm l) eqn:Hm.
    + rewrite remove_link_skipping_match by done.
      by apply sublist_cons, sublist_skip.
    + rewrite remove_link_skipping_other by done. by apply sublist_skip.
Qed.

Lemma adjacent_matches_cons (dt nm : string) (l l' : DynamicLink)
    (ls : list DynamicLink) :
  adjacent_matches dt nm (l :: l' :: ls)
    = (link_matches dt nm l && link_matches dt nm l')
      || adjacent_matches dt nm (l' :: ls).
Proof. done. Qed.

Lemma adjacent_matches_other (dt nm : string) (l : DynamicLink)
    (ls : list DynamicLink) :
  link_matches dt nm l = false →
  adjacent_matches dt nm (l :: ls) = adjacent_matches dt nm ls.
Proof.
  intros Hm. destruct ls as [|l' ls]; [done|].
  by rewrite adjacent_matches_cons, Hm.
Qed.

Lemma remove_link_skipping_complete (dt nm : string) (ls : list DynamicLink) :
  Forall (λ l, link_matches dt nm l = false) (remove_link_skipping dt nm ls)
  ↔ adjacent_matches dt nm ls = false.
Proof.
  induction ls as [|l|l l' ls IH0 IH1] using list_pair_ind.
  - done.
  - simpl. destruct (link_matches dt nm l) eqn:Hm; [done|].
    split; [done|]. intros _. by repeat constructor.
  - destruct (link_matches dt nm l) eqn:Hm.
    + rewrite remove_link_skipping_match by done.
      rewrite Forall_cons, IH0, adjacent_matches_cons, Hm.
      destruct (link_matches dt nm l') eqn:Hm'.
      * simpl. split; [by intros [? _]|done].
      * rewrite adjacent_matches_other by done. simpl. tauto.
    + rewrite remove_link_skipping_other by done.
      rewrite Forall_cons, IH1, (adjacent_matches_other dt nm l) by done.
      tauto.
Qed.

Lemma link_matches_pair_of (dt nm : string) (l : DynamicLink) :
  link_matches dt nm l = true ↔ pair_of l = (dt, nm).
Proof.
  unfold link_matches, pair_of.
  rewrite andb_true_iff, !bool_decide_eq_true. naive_solver.
Qed.

Lemma adjacent_matches_unique (dt nm : string) (ls : list DynamicLink) :
  NoDup (pair_of <$> ls) → adjacent_matches dt nm ls = false.
Proof.
  induction ls as [|l ls IH]; [done|]. intros Hnd.
  rewrite fmap_cons in Hnd. apply NoDup_cons in Hnd as [Hl Hnd].
  destruct ls as [|l' ls]; [done|].
  rewrite adjacent_matches_cons, (IH Hnd), orb_false_r.
  apply andb_false_iff.
  destruct (link_matches dt nm l) eqn:Hm; [right|by left].
  destruct (link_matches dt nm l') eqn:Hm'; [|done].
  apply link_matches_pair_of in Hm, Hm'.
  exfalso. apply Hl. rewrite fmap_cons, Hm, Hm'. apply list_elem_of_here.
Qed.

Lemma filter_unmatched_all (dt nm : string) (ls : list DynamicLink) :
  Forall (λ l, link_matches dt nm l = false) ls →
  filter (λ l, link_matches dt nm l = false) ls = ls.
Proof.
  induction 1 as [|l ls Hl _ IH]; [done|].
  by rewrite filter_cons_True, IH.
Qed.

Lemma remove_link_skipping_absent (dt nm : string) (ls : list DynamicLink) :
  Forall (λ l, link_matches dt nm l = false) ls →
  remove_link_skipping dt nm ls = ls.
Proof.
  induction 1 as [|l ls Hl _ IH]; [done|].
  by rewrite remove_link_skipping_other, IH.
Qed.

(** X1: [remove_link] keeps every row that does not match, in the order
    they had, and puts no row in: the list after is a sublist of the list
    before with the same non-matching rows. *)
Theorem remove_link_keeps_other_rows (dt nm : string) (autosave ip : bool)
    (s : Session) :
  let before := dynamic_links (self s) in
  let after := dynamic_links (self (remove_link dt nm autosave ip s)) in
  filter (λ l, link_matches dt nm l = false) after
    = filter (λ l, link_matches dt nm l = false) before
  ∧ after `sublist_of` before.
Proof.
  intros before after. subst before after.
  rewrite remove_link_dynamic_links. split.
  - apply remove_link_skipping_others.
  - apply remove_link_skipping_sublist.
Qed.

(** X2: [remove_link] leaves no matching row exactly when no two matching
    rows are next to each other in the list; the list after is then the
    list before without its matching rows. *)
Theorem remove_link_complete_iff (dt nm : string) (autosave ip : bool)
    (s : Session) :
  let before := dynamic_links (self s) in
  let after := dynamic_links (self (remove_link dt nm autosave ip s)) in
  (Forall (λ l, link_matches dt nm l = false) after
   ↔ adjacent_matches dt nm before = false)
  ∧ (adjacent_matches dt nm before = false →
     after = filter (λ l, link_matches dt nm l = false) before).
Proof.
  intros before after. subst before after.
  rewrite remove_link_dynamic_links.
  split; [apply remove_link_skipping_complete|].
  intros Hadj. apply remove_link_skipping_complete in Hadj.
  rewrite <- remove_link_skipping_others.
  symmetry. by apply filter_unmatched_all.
Qed.

Lemma remove_link_complete_iff_witness :
  let s := mkSession
             (mkCommunication "COMM-1" "" "" "" "Communication"
                [mkLink "Contact" "c1"; mkLink "Lead" "l1";
                 mkLink "Contact" "c1"]) [] in
  (Forall (λ l, link_matches "Contact" "c1" l = false)
     (dynamic_links (self (remove_link "Contact" "c1" false true s)))
   ↔ adjacent_matches "Contact" "c1" (dynamic_links (self s)) = false)
  ∧ dynamic_links (self (remove_link "Contact" "c1" false true s))
    = filter (λ l, link_matches "Contact" "c1" l = false)
        (dynamic_links (self s)).
Proof.
  intros s.
  destruct (remove_link_complete_iff "Contact" "c1" false true s)
    as [Hiff Heq].
  split; [exact Hiff|]. apply Heq. vm_compute. reflexivity.
Defined.

(** X3: on a list without a row for the pair, [add_link] followed by
    [remove_link] of the same pair gives the list back. *)
Theorem add_link_remove_link (dt nm : string) (autosave autosave' ip : bool)
    (s : Session) :
  Forall (λ l, link_matches dt nm l = false) (dynamic_links (self s)) →
  dynamic_links
    (self (remove_link dt nm autosave' ip (add_link dt nm autosave s)))
  = dynamic_links (self s).
Proof.
  intros Hnone. rewrite remove_link_dynamic_links.
  replace (dynamic_links (self (add_link dt nm autosave s)))
    with (dynamic_links (self s) ++ [mkLink dt nm])
    by (by destruct autosave).
  rewrite remove_link_skipping_single; by rewrite (right_id_L [] (++)).
Qed.

Lemma add_link_remove_link_witness :
  let s := mkSession
             (mkCommunication "COMM-1" "" "" "" "Communication"
                [mkLink "Lead" "l1"; mkLink "Contact" "c2"]) [] in
  dynamic_links
    (self (remove_link "Contact" "c1" false true
             (add_link "Contact" "c1" false s)))
  = dynamic_links (self s).
Proof.
  intros s. apply (add_link_remove_link "Contact" "c1" false false true s).
  by repeat constructor.
Defined.

(** X4: [remove_link] calls [save] once, with the [ignore_permissions] it
    was given, when [autosave] is set, and does not call it otherwise. *)
Theorem remove_link_autosave (dt nm : string) (ip : bool) (s : Session) :
  journal (remove_link dt nm true ip s) = journal s ++ [Save ip]
  ∧ journal (remove_link dt nm false ip s) = journal s.
Proof. done. Qed.

(** X5: [remove_link] for a pair that no row has changes nothing. *)
Theorem remove_link_absent (dt nm : string) (ip : bool) (s : Session) :
  Forall (λ l, link_matches dt nm l = false) (dynamic_links (self s)) →
  remove_link dt nm false ip s = s.
Proof.
  intros Hnone.
  pose proof (remove_link_loop_skipping (length (dynamic_links (self s)))
                dt nm [] (dynamic_links (self s))) as Hloop.
  simpl in Hloop. unfold remove_link. rewrite Hloop by done.
  rewrite remove_link_skipping_absent by done.
  rewrite set_dynamic_links_id. by destruct s.
Qed.

Lemma remove_link_absent_witness :
  let s := mkSession
             (mkCommunication "COMM-1" "" "" "" "Communication"
                [mkLink "Lead" "l1"; mkLink "Contact" "c2"]) [Save true] in
  remove_link "Contact" "c1" false true s = s.
Proof.
  intros s. apply (remove_link_absent "Contact" "c1" true s).
  by repeat constructor.
Defined.

(** ** [deduplicate_dynamic_links], continued *)

(** X6: [deduplicate_dynamic_links] never calls [save] and touches no
    attribute of the document other than [dynamic_links]. *)
Theorem deduplicate_dynamic_links_frame (s : Session) :
  journal (deduplicate_dynamic_links s) = journal s
  ∧ set_dynamic_links (dynamic_links (self s))
      (self (deduplicate_dynamic_links s)) = self s.
Proof.
  rewrite deduplicate_dynamic_links_spec. simpl.
  split; [done|]. by destruct s as [[]].
Qed.

(** X7: after [deduplicate_dynamic_links], [remove_link] leaves no row for
    the pair: rows with distinct pairs have no two matching rows next to
    each other. *)
Theorem deduplicate_then_remove_link (dt nm : string) (autosave ip : bool)
    (s : Session) :
  Forall (λ l, link_matches dt nm l = false)
    (dynamic_links
       (self (remove_link dt nm autosave ip (deduplicate_dynamic_links s)))).
Proof.
  rewrite remove_link_dynamic_links.
  apply remove_link_skipping_complete, adjacent_matches_unique.
  rewrite deduplicate_dynamic_links_spec. simpl.
  apply spec_deduplicate_pairs.
Qed.

Lemma spec_deduplicate_app (seen : gset (string * string))
    (ls ls' : list DynamicLink) :
  spec_deduplicate seen (ls ++ ls')
    = spec_deduplicate seen ls
      ++ spec_deduplicate (list_to_set (pair_of <$> ls) ∪ seen) ls'.
Proof.
  revert seen. induction ls as [|l ls IH]; intros seen.
  - simpl. by rewrite (left_id_L ∅ (∪)).
  - rewrite fmap_cons. simpl. case_bool_decide as Hseen.
    + rewrite IH. f_equal. f_equal. set_solver.
    + rewrite IH. simpl. f_equal. f_equal. f_equal. set_solver.
Qed.

(** X8: on a list without a duplicate pair, [add_link] followed by
    [deduplicate_dynamic_links] gives the list back when it had a row for
    the pair, and the list with the new row at its end when it had none. *)
Theorem add_link_then_deduplicate (dt nm : string) (autosave : bool)
    (s : Session) :
  NoDup (pair_of <$> dynamic_links (self s)) →
  dynamic_links (self (deduplicate_dynamic_links (add_link dt nm autosave s)))
  = if bool_decide ((dt, nm) ∈ pair_of <$> dynamic_links (self s))
    then dynamic_links (self s)
    else dynamic_links (self s) ++ [mkLink dt nm].
Proof.
  intros Hnd. rewrite deduplicate_dynamic_links_spec. simpl.
  replace (dynamic_links (self (add_link dt nm autosave s)))
    with (dynamic_links (self s) ++ [mkLink dt nm])
    by (by destruct autosave).
  rewrite spec_deduplicate_app.
  rewrite spec_deduplicate_unique; [|done|set_solver].
  simpl. rewrite (right_id_L ∅ (∪)).
  rewrite (bool_decide_ext _ ((dt, nm) ∈ pair_of <$> dynamic_links (self s)))
    by apply elem_of_list_to_set.
  case_bool_decide; [|done]. by rewrite (right_id_L [] (++)).
Qed.

Lemma add_link_then_deduplicate_witness :
  let s := mkSession
             (mkCommunication "COMM-1" "" "" "" "Communication"
                [mkLink "Contact" "c1"; mkLink "Lead" "l1"]) [] in
  dynamic_links
    (self (deduplicate_dynamic_links (add_link "Contact" "c1" false s)))
  = dynamic_links (self s).
Proof.
  intros s.
  rewrite (add_link_then_deduplicate "Contact" "c1" false s).
  - vm_compute. reflexivity.
  - apply (bool_decide_unpack _). vm_compute. exact I.
Defined.

(** ** [validate_circular_links], continued *)

Section CircularLinksPaths.

Variable get_doc : string → string → option Communication.

Implicit Types (links : list DynamicLink) (l : DynamicLink).
Implicit Types (self_name : string) (d c : Communication).

Lemma resolves_to_cons l links d :
  resolves_to get_doc links d → resolves_to get_doc (l :: links) d.
Proof. intros (l' & Hin & Hc & Hd). exists l'. by split; [right|]. Qed.

(** A lookup that succeeds is a lookup of the store by the link's name. *)
Lemma get_timeline_parent_doc_found l (o : option Communication) :
  is_communication l = true →
  get_timeline_parent_doc get_doc (link_doctype l) (link_name l) = Ok o →
  o = get_doc "Communication" (link_name l).
Proof.
  intros Hc. apply is_communication_doctype in Hc.
  unfold get_timeline_parent_doc. rewrite Hc.
  case_match; [|done]. by intros [= <-].
Qed.

Lemma get_timeline_parent_doc_raise (dt n : string) (e : Exception) :
  get_timeline_parent_doc get_doc dt n = Raise e → e = UnboundLocalError.
Proof. unfold get_timeline_parent_doc. case_match; congruence. Qed.

Lemma level_3_loop_raise self_name links (b : bool) (e : Exception) :
  level_3_loop get_doc self_name links b = Raise e → e = UnboundLocalError.
Proof.
  induction links as [|l links IH]; [done|]. cbn [level_3_loop].
  destruct (is_communication l); [|done].
  destruct (get_timeline_parent_doc _ _ _) as [[d|]|e'] eqn:Hg; cbn [bind].
  - by case_bool_decide.
  - done.
  - intros [= <-]. by apply get_timeline_parent_doc_raise in Hg.
Qed.

Lemma level_3_loop_true self_name links :
  level_3_loop get_doc self_name links false = Ok true →
  ∃ d, resolves_to get_doc links d ∧ name d = self_name.
Proof.
  induction links as [|l links IH]; [done|]. cbn [level_3_loop].
  destruct (is_communication l) eqn:Hc;
    [|by intros (d & ? & ?)%IH; exists d; split; [apply resolves_to_cons|]].
  destruct (get_timeline_parent_doc _ _ _) as [[d|]|e'] eqn:Hg; cbn [bind].
  - apply get_timeline_parent_doc_found in Hg; [|done].
    case_bool_decide as Hn.
    + intros _. exists d. split; [|done].
      exists l. by split; [left|].
    + intros (d' & ? & ?)%IH. exists d'. by split; [apply resolves_to_cons|].
  - intros (d' & ? & ?)%IH. exists d'. by split; [apply resolves_to_cons|].
  - done.
Qed.

Lemma level_2_loop_raise self_name links (e : Exception) :
  level_2_loop get_doc self_name links false = Raise e →
  e = UnboundLocalError
  ∨ e = CircularLinkingError timeline_message
    ∧ ∃ d, resolves_to get_doc links d
           ∧ level_3_loop get_doc self_name (dynamic_links d) false = Ok true.
Proof.
  induction links as [|l links IH]; [done|]. cbn [level_2_loop].
  assert (Hrest : level_2_loop get_doc self_name links false = Raise e →
                  e = UnboundLocalError
                  ∨ e = CircularLinkingError timeline_message
                    ∧ ∃ d, resolves_to get_doc (l :: links) d
                           ∧ level_3_loop get_doc self_name (dynamic_links d)
                               false = Ok true).
  { intros [?|(? & d & ? & ?)]%IH; [by left|right].
    split; [done|]. exists d. by split; [apply resolves_to_cons|]. }
  destruct (is_communication l) eqn:Hc; [|done].
  destruct (get_timeline_parent_doc _ _ _) as [[d|]|e'] eqn:Hg; cbn [bind].
  - apply get_timeline_parent_doc_found in Hg; [|done].
    destruct (level_3_loop _ _ _ _) as [[|]|e''] eqn:H3; cbn [bind].
    + intros [= <-]. right. split; [done|].
      exists d. split; [|done]. exists l. by split; [left|].
    + done.
    + intros [= <-]. left. by apply level_3_loop_raise in H3.
  - done.
  - intros [= <-]. left. by apply get_timeline_parent_doc_raise in Hg.
Qed.

Lemma level_1_loop_raise self_name links (e : Exception) :
  level_1_loop get_doc self_name links = Raise e →
  e = UnboundLocalError
  ∨ e = CircularLinkingError timeline_message
    ∧ ∃ d, resolves_to get_doc links d
           ∧ level_2_loop get_doc self_name (dynamic_links d) false
             = Raise (CircularLinkingError timeline_message).
Proof.
  induction links as [|l links IH]; [done|]. cbn [level_1_loop].
  assert (Hrest : level_1_loop get_doc self_name links = Raise e →
                  e = UnboundLocalError
                  ∨ e = CircularLinkingError timeline_message
                    ∧ ∃ d, resolves_to get_doc (l :: links) d
                           ∧ level_2_loop get_doc self_name (dynamic_links d)
                               false
                             = Raise (CircularLinkingError timeline_message)).
  { intros [?|(? & d & ? & ?)]%IH; [by left|right].
    split; [done|]. exists d. by split; [apply resolves_to_cons|]. }
  destruct (is_communication l) eqn:Hc; [|done].
  destruct (get_timeline_parent_doc _ _ _) as [[d|]|e'] eqn:Hg; cbn [bind].
  - apply get_timeline_parent_doc_found in Hg; [|done].
    destruct (level_2_loop _ _ _ _) as [[]|e''] eqn:H2; cbn [bind]; [done|].
    intros [= <-].
    destruct (level_2_loop_raise _ _ _ H2) as [?|[-> _]]; [by left|right].
    split; [done|]. exists d. split; [|done]. exists l. by split; [left|].
  - done.
  - intros [= <-]. left. by apply get_timeline_parent_doc_raise in Hg.
Qed.

Lemma level_1_loop_outcome self_name links :
  store_well_named get_doc → well_named links →
  level_1_loop get_doc self_name links = Ok tt
  ∨ level_1_loop get_doc self_name links
      = Raise (CircularLinkingError timeline_message).
Proof.
  intros Hstore. induction links as [|l links IH]; intros Hwn; [by left|].
  apply well_named_cons in Hwn as [Hl Hwn].
  destruct (is_communication l) eqn:Hc.
  - rewrite level_1_loop_communication by auto.
    destruct (get_doc _ _) as [d|] eqn:Hd; [|by apply IH].
    destruct (level_2_loop_outcome get_doc self_name (dynamic_links d) Hstore
                (Hstore _ _ _ Hd)) as [-> | ->]; [by apply IH|by right].
  - rewrite level_1_loop_other by done. by apply IH.
Qed.

(** The error of a detected cycle comes from a path of three links. *)
Lemma validate_circular_links_raise c (e : Exception) :
  validate_circular_links get_doc c = Raise e →
  e = UnboundLocalError
  ∨ e = CircularLinkingError timeline_message ∧ returns_in_three_hops get_doc c.
Proof.
  unfold validate_circular_links.
  intros [?|(-> & d1 & H1 & Hraise)]%level_1_loop_raise; [by left|right].
  split; [done|].
  apply level_2_loop_raise in Hraise as [?|(_ & d2 & H2 & Htrue)]; [done|].
  apply level_3_loop_true in Htrue as (d3 & H3 & Hname).
  by exists d1, d2, d3.
Qed.

(** A path of three links is detected. *)
Lemma validate_circular_links_detects c :
  store_well_named get_doc → well_named (dynamic_links c) →
  returns_in_three_hops get_doc c →
  validate_circular_links get_doc c
    = Raise (CircularLinkingError timeline_message).
Proof.
  intros Hstore Hwn (d1 & d2 & d3 & (l1 & Hin1 & Hc1 & Hd1)
                      & (l2 & Hin2 & Hc2 & Hd2) & (l3 & Hin3 & Hc3 & Hd3)
                      & Hname).
  unfold validate_circular_links.
  apply (level_1_loop_hit get_doc (name c) _ l1 d1); [done..|].
  apply (level_2_loop_hit get_doc (name c) _ l2 d2);
    [done|by apply (Hstore _ _ _ Hd1)|done..|].
  apply (level_3_loop_hit get_doc (name c) _ l3 d3);
    [by apply (Hstore _ _ _ Hd2)|done..].
Qed.

(** X9: [validate_circular_links] ends in one of three ways, whatever the
    record and the store: it returns, it throws [CircularLinkingError]
    with its message, or [get_timeline_parent_doc] fails on a link that
    lacks a name.  The circular-linking error is thrown only when three
    Communication links lead from the record back to its name. *)
Theorem validate_circular_links_outcomes (c : Communication) :
  validate_circular_links get_doc c = Ok tt
  ∨ validate_circular_links get_doc c = Raise UnboundLocalError
  ∨ validate_circular_links get_doc c
      = Raise (CircularLinkingError timeline_message)
    ∧ returns_in_three_hops get_doc c.
Proof.
  destruct (validate_circular_links get_doc c) as [[]|e] eqn:Hv; [by left|].
  right. apply validate_circular_links_raise in Hv as [->|[-> Hpath]].
  - by left.
  - by right.
Qed.

(** X10: when every Communication link names its target,
    [validate_circular_links] throws [CircularLinkingError] exactly when
    three Communication links lead from the record back to its name, and
    returns otherwise: shorter and longer ways back are not looked for. *)
Theorem validate_circular_links_iff (c : Communication) :
  store_well_named get_doc → well_named (dynamic_links c) →
  (validate_circular_links get_doc c
     = Raise (CircularLinkingError timeline_message)
   ↔ returns_in_three_hops get_doc c)
  ∧ (validate_circular_links get_doc c = Ok tt
     ↔ ¬ returns_in_three_hops get_doc c).
Proof.
  intros Hstore Hwn. split; split.
  - intros [?|[_ ?]]%validate_circular_links_raise; done.
  - by apply validate_circular_links_detects.
  - intros Hok Hpath.
    rewrite validate_circular_links_detects in Hok; done.
  - intros Hno.
    destruct (level_1_loop_outcome (name c) (dynamic_links c) Hstore Hwn)
      as [Hok|Hraise]; [done|].
    exfalso. apply Hno.
    by apply validate_circular_links_raise in Hraise as [?|[_ ?]].
Qed.

(** X11: when every Communication link of the record and of the stored
    records names its target, a Communication with a Communication link
    to itself is rejected: the stored record is reached again with the
    second and the third link. *)
Theorem validate_circular_links_self_link (c c' : Communication) (a : string) :
  store_well_named get_doc → well_named (dynamic_links c) →
  mkLink "Communication" a ∈ dynamic_links c →
  get_doc "Communication" a = Some c' →
  mkLink "Communication" a ∈ dynamic_links c' →
  name c' = name c →
  validate_circular_links get_doc c
    = Raise (CircularLinkingError timeline_message).
Proof.
  intros Hstore Hwn Hin Hc' Hin' Hname.
  apply validate_circular_links_detects; [done..|].
  exists c', c', c'.
  split_and!; [| | |done]; by exists (mkLink "Communication" a).
Qed.

(** X12: links to records of other types play no part: two records with
    the same name and the same Communication links, in the same order,
    validate alike. *)
Theorem validate_circular_links_other_links (c c' : Communication) :
  name c = name c' →
  communication_links (dynamic_links c)
    = communication_links (dynamic_links c') →
  validate_circular_links get_doc c = validate_circular_links get_doc c'.
Proof.
  intros Hname Hlinks. unfold validate_circular_links.
  rewrite (level_1_loop_filter get_doc (name c)).
  rewrite (level_1_loop_filter get_doc (name c')).
  by rewrite Hname, Hlinks.
Qed.

(** X13: a Communication link without a name, met before any cycle, makes
    the validation fail with [UnboundLocalError], not with a validation
    message: here it is the first Communication link of the record. *)
Theorem validate_circular_links_unnamed (c : Communication) (l : DynamicLink)
    (links : list DynamicLink) :
  communication_links (dynamic_links c) = l :: links →
  link_name l = "" →
  validate_circular_links get_doc c = Raise UnboundLocalError.
Proof.
  intros Hlinks Hname. unfold validate_circular_links.
  rewrite level_1_loop_filter, Hlinks.
  assert (Hc : is_communication l = true).
  { assert (Hin : l ∈ communication_links (dynamic_links c))
      by (rewrite Hlinks; left).
    by apply list_elem_of_filter in Hin as [? _]. }
  cbn [level_1_loop]. rewrite Hc.
  unfold get_timeline_parent_doc. rewrite Hname.
  by rewrite andb_false_r.
Qed.

End CircularLinksPaths.

Lemma validate_circular_links_iff_witness :
  let A := timeline_doc "A" [mkLink "Communication" "B"] in
  let B := timeline_doc "B" [mkLink "Communication" "C"] in
  let C := timeline_doc "C" [mkLink "Communication" "A"] in
  (validate_circular_links (store_of [A; B; C]) A
     = Raise (CircularLinkingError timeline_message)
   ↔ returns_in_three_hops (store_of [A; B; C]) A)
  ∧ (validate_circular_links (store_of [A; B; C]) A = Ok tt
     ↔ ¬ returns_in_three_hops (store_of [A; B; C]) A).
Proof.
  intros A B C.
  apply (validate_circular_links_iff (store_of [A; B; C]) A).
  - apply store_of_well_named.
    repeat constructor; by apply well_named_single.
  - by apply well_named_single.
Defined.

Lemma validate_circular_links_self_link_witness :
  let A := timeline_doc "A" [mkLink "Lead" "l1"; mkLink "Communication" "A"] in
  validate_circular_links (store_of [A]) A
    = Raise (CircularLinkingError timeline_message).
Proof.
  intros A.
  assert (Hwn : well_named (dynamic_links A)).
  { intros l Hl Hc. apply elem_of_cons in Hl as [->|Hl]; [done|].
    by apply list_elem_of_singleton in Hl as ->. }
  apply (validate_circular_links_self_link (store_of [A]) A A "A").
  - apply store_of_well_named. by repeat constructor.
  - exact Hwn.
  - apply list_elem_of_further, list_elem_of_here.
  - vm_compute. reflexivity.
  - apply list_elem_of_further, list_elem_of_here.
  - reflexivity.
Defined.

Lemma validate_circular_links_other_links_witness :
  let A := timeline_doc "A" [mkLink "Communication" "B"] in
  let A' := timeline_doc "A" [mkLink "Lead" "l1"; mkLink "Communication" "B";
                               mkLink "Contact" "c1"] in
  validate_circular_links (store_of [A]) A
    = validate_circular_links (store_of [A]) A'.
Proof.
  intros A A'.
  apply (validate_circular_links_other_links (store_of [A]) A A').
  - reflexivity.
  - vm_compute. reflexivity.
Defined.

Lemma validate_circular_links_unnamed_witness :
  let A := timeline_doc "A" [mkLink "Lead" "l1"; mkLink "Communication" "";
                              mkLink "Communication" "B"] in
  validate_circular_links (store_of [A]) A = Raise UnboundLocalError.
Proof.
  intros A.
  apply (validate_circular_links_unnamed (store_of [A]) A
           (mkLink "Communication" "") [mkLink "Communication" "B"]).
  - vm_compute. reflexivity.
  - reflexivity.
Defined.

(** ** [validate_reference], continued *)

Section ReferenceOutcomes.

Variable get_doc : string → string → option Communication.
Variable get_owner : string → string → string.
Variable istable : string → bool.

Implicit Types (c p g : Communication).

Lemma truthy_true (s : string) : s ≠ "" → truthy s = true.
Proof. intros Hs. unfold truthy. by rewrite bool_decide_eq_true_2. Qed.

Lemma truthy_false (s : string) : s = "" → truthy s = false.
Proof. by intros ->. Qed.

(** [validate_reference] on a complete reference to a doctype that is not
    a child table. *)
Lemma validate_reference_checked (fuel : nat) c :
  reference_doctype c ≠ "" → reference_name c ≠ "" →
  istable (reference_doctype c) = false →
  validate_reference get_doc get_owner istable fuel c
  = if bool_decide (reference_doctype c = "Communication") then
      match get_parent_doc get_doc c with
      | None => Some (Raise AttributeError)
      | Some doc =>
        match reference_loop get_doc fuel (name c) doc with
        | None => None
        | Some (Raise e) => Some (Raise e)
        | Some (Ok true) =>
          Some (Raise (CircularLinkingError reference_message))
        | Some (Ok false) => Some (Ok (with_reference_owner get_owner c))
        end
      end
    else Some (Ok (with_reference_owner get_owner c)).
Proof.
  intros Hdt Hn Htable. unfold validate_reference, with_reference_owner.
  rewrite !truthy_true by done. cbn [andb].
  by destruct (truthy (reference_owner c)); simpl; rewrite Htable.
Qed.

Lemma validate_reference_incomplete (fuel : nat) c :
  reference_doctype c = "" ∨ reference_name c = "" →
  validate_reference get_doc get_owner istable fuel c = Some (Ok c).
Proof.
  intros Hnone. unfold validate_reference.
  destruct Hnone as [Hnone|Hnone]; rewrite (truthy_false _ Hnone);
    by rewrite ?andb_false_r.
Qed.

Lemma validate_reference_istable (fuel : nat) c :
  reference_doctype c ≠ "" → reference_name c ≠ "" →
  istable (reference_doctype c) = true →
  validate_reference get_doc get_owner istable fuel c
  = Some (Raise (ValidationError (child_table_message c))).
Proof.
  intros Hdt Hn Htable. unfold validate_reference.
  rewrite !truthy_true by done. cbn [andb].
  by destruct (truthy (reference_owner c)); simpl; rewrite Htable.
Qed.

(** X14: without a complete primary reference [validate_reference] does
    nothing: it returns the document as it is, and asks neither the store
    nor the metadata. *)
Theorem validate_reference_no_reference (fuel : nat) c :
  reference_doctype c = "" ∨ reference_name c = "" →
  validate_reference get_doc get_owner istable fuel c = Some (Ok c).
Proof. apply validate_reference_incomplete. Qed.

(** X15: a reference to a child table is refused with a validation error
    that names the communication type and the doctype, before any circular
    check and whatever the store holds. *)
Theorem validate_reference_child_table (fuel : nat) c :
  reference_doctype c ≠ "" → reference_name c ≠ "" →
  istable (reference_doctype c) = true →
  validate_reference get_doc get_owner istable fuel c
  = Some (Raise (ValidationError
      ("Cannot create a " +:+ communication_type c
         +:+ " against a child document: " +:+ reference_doctype c))).
Proof.
  intros Hdt Hn Htable. by rewrite validate_reference_istable.
Qed.

(** X16: when [validate_reference] returns, the document it returns
    differs from the one it was given in [reference_owner] at most: an
    owner that was set is kept, and a missing one is fetched only when
    there is a complete reference. *)
Theorem validate_reference_frame (fuel : nat) c c' :
  validate_reference get_doc get_owner istable fuel c = Some (Ok c') →
  set_reference_owner (reference_owner c) c' = c
  ∧ (reference_owner c ≠ "" → c' = c)
  ∧ (reference_doctype c = "" ∨ reference_name c = "" → c' = c)
  ∧ (reference_owner c = "" →
     reference_doctype c ≠ "" → reference_name c ≠ "" →
     reference_owner c'
       = get_owner (reference_doctype c) (reference_name c)).
Proof.
  intros Hv.
  assert (Hc' : (reference_doctype c = "" ∨ reference_name c = "") ∧ c' = c
                ∨ reference_doctype c ≠ "" ∧ reference_name c ≠ ""
                  ∧ c' = with_reference_owner get_owner c).
  { destruct (decide (reference_doctype c = "")) as [Hdt|Hdt].
    { left. rewrite validate_reference_incomplete in Hv by auto.
      split; [auto|congruence]. }
    destruct (decide (reference_name c = "")) as [Hn|Hn].
    { left. rewrite validate_reference_incomplete in Hv by auto.
      split; [auto|congruence]. }
    right. split_and!; [done..|].
    destruct (istable (reference_doctype c)) eqn:Htable.
    { by rewrite validate_reference_istable in Hv. }
    rewrite validate_reference_checked in Hv by done.
    case_bool_decide; [|congruence].
    destruct (get_parent_doc get_doc c) as [doc|]; [|done].
    destruct (reference_loop _ _ _ _) as [[[|]|]|]; congruence. }
  destruct Hc' as [[Hnone ->]|(Hdt & Hn & ->)].
  { split_and!; [by destruct c|done|done|]. intros _ ? ?. by destruct Hnone. }
  unfold with_reference_owner, truthy.
  case_bool_decide as Ho; simpl.
  - split_and!; [by destruct c|done|done|done].
  - split_and!; [by destruct c|done| |done].
    by intros [?|?].
Qed.

(** X17: a reply to a Communication that is itself a reply to the
    validated record is refused with [CircularLinkingError]. *)
Theorem validate_reference_reply_to_own_reply (fuel : nat) c p g
    (n m : string) :
  reference_doctype c = "Communication" → reference_name c = n → n ≠ "" →
  istable "Communication" = false →
  get_doc "Communication" n = Some p →
  reference_doctype p = "Communication" → reference_name p = m → m ≠ "" →
  get_doc "Communication" m = Some g →
  name g = name c →
  validate_reference get_doc get_owner istable (S fuel) c
  = Some (Raise (CircularLinkingError
      "Please make sure the Reference Communication Docs are not circularly linked.")).
Proof.
  intros Hdt Hn Hne Htable Hp Hpdt Hpn Hme Hg Hname.
  rewrite validate_reference_checked by (rewrite ?Hdt, ?Hn; done).
  rewrite bool_decide_eq_true_2 by done.
  unfold get_parent_doc at 1.
  rewrite Hdt, Hn, (truthy_true n), Hp by done. simpl.
  unfold get_parent_doc.
  rewrite Hpdt, Hpn, (truthy_true m), Hg by done. simpl.
  by rewrite bool_decide_eq_true_2.
Qed.

(** X18: a reply to a stored Communication that is not itself a reply to
    a Communication passes the circular check, also when that stored
    Communication has the name of the validated record (a record that is
    made to refer to itself). *)
Theorem validate_reference_parent_not_reply (fuel : nat) c p (n : string) :
  reference_doctype c = "Communication" → reference_name c = n → n ≠ "" →
  istable "Communication" = false →
  get_doc "Communication" n = Some p →
  reference_doctype p ≠ "Communication" →
  validate_reference get_doc get_owner istable (S fuel) c
  = Some (Ok (with_reference_owner get_owner c)).
Proof.
  intros Hdt Hn Hne Htable Hp Hpdt.
  rewrite validate_reference_checked by (rewrite ?Hdt, ?Hn; done).
  rewrite bool_decide_eq_true_2 by done.
  unfold get_parent_doc.
  rewrite Hdt, Hn, (truthy_true n), Hp by done. simpl.
  by rewrite bool_decide_eq_false_2.
Qed.

End ReferenceOutcomes.

(** X19: when the primary reference is not to a Communication the store
    is not consulted and the loop is not entered: the answer is there
    without a round of the loop and is the same for every store. *)
Theorem validate_reference_other_doctype
    (get_doc get_doc' : string → string → option Communication)
    (get_owner : string → string → string) (istable : string → bool)
    (fuel : nat) (c : Communication) :
  reference_doctype c ≠ "Communication" →
  validate_reference get_doc get_owner istable fuel c
    = validate_reference get_doc' get_owner istable 0 c
  ∧ is_Some (validate_reference get_doc get_owner istable fuel c).
Proof.
  intros Hdt. unfold validate_reference.
  destruct (truthy (reference_doctype c) && truthy (reference_name c));
    [|by split].
  assert (Hsame : ∀ c', reference_doctype c' = reference_doctype c →
            (if istable (reference_doctype c')
             then Some (Raise (ValidationError (child_table_message c')))
             else if bool_decide (reference_doctype c' = "Communication")
             then match get_parent_doc get_doc c' with
                  | None => Some (Raise AttributeError)
                  | Some doc =>
                    match reference_loop get_doc fuel (name c') doc with
                    | None => None
                    | Some (Raise e) => Some (Raise e)
                    | Some (Ok true) =>
                      Some (Raise (CircularLinkingError reference_message))
                    | Some (Ok false) => Some (Ok c')
                    end
                  end
             else Some (Ok c'))
            = (if istable (reference_doctype c')
               then Some (Raise (ValidationError (child_table_message c')))
               else Some (Ok c'))).
  { intros c' Hc'. rewrite Hc'. by rewrite bool_decide_eq_false_2. }
  destruct (truthy (reference_owner c)); simpl.
  - rewrite bool_decide_eq_false_2 by done.
    split; [done|]. by destruct (istable _).
  - rewrite bool_decide_eq_false_2 by done.
    split; [done|]. by destruct (istable _).
Qed.

Lemma validate_reference_other_doctype_witness :
  let c := mkCommunication "COMM-2" "Lead" "LEAD-1" "" "Communication" [] in
  validate_reference (store_of []) (λ _ _, "Administrator") (λ _, false) 5 c
    = validate_reference (λ _ _, Some c) (λ _ _, "Administrator")
        (λ _, false) 0 c
  ∧ is_Some (validate_reference (store_of []) (λ _ _, "Administrator")
               (λ _, false) 5 c).
Proof.
  intros c.
  apply (validate_reference_other_doctype (store_of []) (λ _ _, Some c)).
  discriminate.
Defined.

Lemma validate_reference_no_reference_witness :
  let c := mkCommunication "COMM-2" "Communication" "" "" "Communication" [] in
  validate_reference (store_of []) (λ _ _, "Administrator") (λ _, true) 0 c
    = Some (Ok c).
Proof.
  intros c. apply validate_reference_no_reference. by right.
Defined.

Lemma validate_reference_child_table_witness :
  let c := mkCommunication "COMM-2" "Sales Invoice Item" "ROW-1" ""
             "Communication" [] in
  validate_reference (store_of []) (λ _ _, "Administrator")
    (λ dt, bool_decide (dt = "Sales Invoice Item")) 0 c
  = Some (Raise (ValidationError
      "Cannot create a Communication against a child document: Sales Invoice Item")).
Proof.
  intros c.
  apply (validate_reference_child_table (store_of [])
           (λ _ _, "Administrator")
           (λ dt, bool_decide (dt = "Sales Invoice Item")) 0 c);
    [discriminate|discriminate|reflexivity].
Defined.

Lemma validate_reference_frame_witness :
  let c := mkCommunication "COMM-2" "Lead" "LEAD-1" "" "Communication" [] in
  let c' := set_reference_owner "Administrator" c in
  set_reference_owner (reference_owner c) c' = c
  ∧ (reference_owner c ≠ "" → c' = c)
  ∧ (reference_doctype c = "" ∨ reference_name c = "" → c' = c)
  ∧ (reference_owner c = "" →
     reference_doctype c ≠ "" → reference_name c ≠ "" →
     reference_owner c' = "Administrator").
Proof.
  intros c c'.
  apply (validate_reference_frame (store_of []) (λ _ _, "Administrator")
           (λ _, false) 0 c c').
  vm_compute. reflexivity.
Defined.

Lemma validate_reference_reply_to_own_reply_witness :
  let A := reply_doc "A" "B" in
  let B := reply_doc "B" "A" in
  validate_reference (store_of [A; B]) (λ _ _, "Administrator")
    (λ _, false) 1 A
  = Some (Raise (CircularLinkingError
      "Please make sure the Reference Communication Docs are not circularly linked.")).
Proof.
  intros A B.
  apply (validate_reference_reply_to_own_reply (store_of [A; B])
           (λ _ _, "Administrator") (λ _, false) 0 A B A "B" "A");
    solve [reflexivity | discriminate | vm_compute; reflexivity].
Defined.

Lemma validate_reference_parent_not_reply_witness :
  let stored := timeline_doc "A" [] in
  let A := reply_doc "A" "A" in
  validate_reference (store_of [stored]) (λ _ _, "Administrator")
    (λ _, false) 1 A
  = Some (Ok (with_reference_owner (λ _ _, "Administrator") A)).
Proof.
  intros stored A.
  apply (validate_reference_parent_not_reply (store_of [stored])
           (λ _ _, "Administrator") (λ _, false) 0 A stored "A");
    solve [reflexivity | discriminate | vm_compute; reflexivity].
Defined.

(** ** [has_permission] *)

(** X20: [has_permission] grants (answers [True]) exactly for a read of a
    Communication with a complete reference, other than to itself, on
    which the framework grants read; in every other case it answers
    nothing, never [False], and the [user] argument plays no part. *)
Theorem has_permission_iff (frappe_has_permission : string → string → bool)
    (doc : Communication) (ptype user : string) :
  (has_permission frappe_has_permission doc ptype user = Some true
   ↔ ptype = "read"
     ∧ ¬ (reference_doctype doc = "Communication"
          ∧ reference_name doc = name doc)
     ∧ reference_doctype doc ≠ "" ∧ reference_name doc ≠ ""
     ∧ frappe_has_permission (reference_doctype doc) (reference_name doc)
       = true)
  ∧ has_permission frappe_has_permission doc ptype user ≠ Some false
  ∧ ∀ user', has_permission frappe_has_permission doc ptype user'
             = has_permission frappe_has_permission doc ptype user.
Proof.
  unfold has_permission, truthy. split_and!; [|by repeat case_match|done].
  repeat case_bool_decide; simpl;
    destruct (frappe_has_permission _ _); simpl; naive_solver.
Qed.

(** ** [get_permission_query_conditions_for_communication] *)

(** X21: the query is left unrestricted (no condition) exactly when the
    user holds the role Super Email User or System Manager, where an empty
    [user] stands for the user of the session; every other user gets a
    condition. *)
Theorem get_permission_query_conditions_unrestricted
    (session_user : string) (get_roles : string → list string)
    (user_email_accounts : string → list string) (user : string) :
  let effective := if bool_decide (user = "") then session_user else user in
  (get_permission_query_conditions_for_communication session_user get_roles
     user_email_accounts user = None
   ↔ "Super Email User" ∈ get_roles effective
     ∨ "System Manager" ∈ get_roles effective)
  ∧ get_permission_query_conditions_for_communication session_user get_roles
      user_email_accounts ""
    = get_permission_query_conditions_for_communication session_user get_roles
        user_email_accounts session_user.
Proof.
  intros effective.
  assert (Heff : ∀ u, (if negb (truthy u) then session_user else u)
                      = if bool_decide (u = "") then session_user else u).
  { intros u. unfold truthy. by repeat case_bool_decide. }
  unfold get_permission_query_conditions_for_communication.
  rewrite !Heff. fold effective. split.
  - destruct (decide ("Super Email User" ∈ get_roles effective)) as [Hs|Hs].
    { rewrite (bool_decide_eq_true_2 ("Super Email User" ∈ get_roles effective)) by done.
      simpl. tauto. }
    destruct (decide ("System Manager" ∈ get_roles effective)) as [Hm|Hm].
    { rewrite (bool_decide_eq_true_2 ("System Manager" ∈ get_roles effective)) by done.
      rewrite orb_true_r. tauto. }
    rewrite (bool_decide_eq_false_2 ("Super Email User" ∈ get_roles effective)) by done.
    rewrite (bool_decide_eq_false_2 ("System Manager" ∈ get_roles effective)) by done.
    simpl. destruct (user_email_accounts effective); split; (done || tauto).
  - rewrite (bool_decide_eq_true_2 ("" = "")) by done.
    by destruct (bool_decide (session_user = "")).
Qed.

(** ** [set_delivery_status] *)

Lemma counted_insert (m : gmap string nat) (s key : string) :
  counted (<[s := S (default 0 (m !! s))]> m) key
    = counted m key || bool_decide (key = s).
Proof.
  unfold counted. destruct (decide (key = s)) as [->|Hne].
  - rewrite lookup_insert_eq, bool_decide_eq_true_2 by done.
    by rewrite orb_true_r.
  - rewrite lookup_insert_ne, bool_decide_eq_false_2 by done.
    by rewrite orb_false_r.
Qed.

(** A status counts in [Counter (statuses)] when it is in the list. *)
Lemma counted_Counter (statuses : list string) (key : string) :
  counted (Counter statuses) key = bool_decide (key ∈ statuses).
Proof.
  unfold Counter.
  enough (Hgen : ∀ m, counted (foldl (λ m s, <[s := S (default 0 (m !! s))]> m)
                                 m statuses) key
                      = counted m key || bool_decide (key ∈ statuses)).
  { rewrite Hgen. unfold counted at 1. by rewrite lookup_empty. }
  induction statuses as [|s statuses IH]; intros m; cbn [foldl].
  - rewrite (bool_decide_eq_false_2 (key ∈ [])) by apply not_elem_of_nil.
    by rewrite orb_false_r.
  - rewrite IH, counted_insert, <- orb_assoc. f_equal.
    apply eq_true_iff_eq. rewrite orb_true_iff, !bool_decide_eq_true.
    rewrite elem_of_cons. tauto.
Qed.

(** X22: for a received Communication [set_delivery_status] does nothing:
    no attribute is written and nothing is published or committed. *)
Theorem set_delivery_status_received (email_queue : string → list string)
    (commit : bool) (d : CommunicationDoc) :
  sent_or_received d = "Received" →
  set_delivery_status email_queue commit d = (d, []).
Proof.
  intros Hr. unfold set_delivery_status.
  by rewrite bool_decide_eq_true_2.
Qed.

(** The status chosen from the statuses of the queue, by membership. *)
Lemma set_delivery_status_chosen (email_queue : string → list string)
    (commit : bool) (d : CommunicationDoc) :
  sent_or_received d ≠ "Received" →
  let q := email_queue (name (fields d)) in
  let v :=
    if bool_decide ("Not Sent" ∈ q) || bool_decide ("Sending" ∈ q)
    then "Sending"
    else if bool_decide ("Error" ∈ q) then "Error"
    else if bool_decide ("Expired" ∈ q) then "Expired"
    else if bool_decide ("Sent" ∈ q) then "Sent"
    else "" in
  set_delivery_status email_queue commit d
  = if bool_decide (v = "") then (d, [])
    else
      (set_delivery_status_field v d,
       [DbSet "delivery_status" v;
        PublishRealtime "update_communication"
          (as_dict (set_delivery_status_field v d))
          (reference_doctype (fields d)) (reference_name (fields d)) "" true;
        NotifyUpdate]
       ++ (if commit then [DbCommit] else [])).
Proof.
  intros Hr q v. subst q v. unfold set_delivery_status.
  rewrite bool_decide_eq_false_2 by done.
  rewrite !counted_Counter.
  by repeat (case_bool_decide; simpl).
Qed.

(** X23: the delivery status follows the queue by priority: one email
    still to be sent or being sent makes it Sending whatever happened to
    the others; otherwise one error makes it Error; otherwise one expired
    email makes it Expired; otherwise one sent email makes it Sent; and a
    queue with none of these statuses (an empty queue) changes nothing. *)
Theorem set_delivery_status_priority (email_queue : string → list string)
    (commit : bool) (d : CommunicationDoc) :
  sent_or_received d ≠ "Received" →
  let q := email_queue (name (fields d)) in
  let after := (set_delivery_status email_queue commit d).1 in
  let pending := "Not Sent" ∈ q ∨ "Sending" ∈ q in
  (pending → delivery_status after = "Sending")
  ∧ (¬ pending → "Error" ∈ q → delivery_status after = "Error")
  ∧ (¬ pending → "Error" ∉ q → "Expired" ∈ q →
     delivery_status after = "Expired")
  ∧ (¬ pending → "Error" ∉ q → "Expired" ∉ q → "Sent" ∈ q →
     delivery_status after = "Sent")
  ∧ (¬ pending → "Error" ∉ q → "Expired" ∉ q → "Sent" ∉ q →
     set_delivery_status email_queue commit d = (d, [])).
Proof.
  intros Hr q after pending. subst after pending.
  rewrite (set_delivery_status_chosen email_queue commit d Hr).
  fold q. split_and!.
  - intros [Hp|Hp].
    + by rewrite (bool_decide_eq_true_2 ("Not Sent" ∈ q)).
    + rewrite (bool_decide_eq_true_2 ("Sending" ∈ q)) by done.
      by rewrite orb_true_r.
  - intros Hp He.
    rewrite (bool_decide_eq_false_2 ("Not Sent" ∈ q)) by tauto.
    rewrite (bool_decide_eq_false_2 ("Sending" ∈ q)) by tauto.
    by rewrite (bool_decide_eq_true_2 ("Error" ∈ q)).
  - intros Hp He Hx.
    rewrite (bool_decide_eq_false_2 ("Not Sent" ∈ q)) by tauto.
    rewrite (bool_decide_eq_false_2 ("Sending" ∈ q)) by tauto.
    rewrite (bool_decide_eq_false_2 ("Error" ∈ q)) by done.
    by rewrite (bool_decide_eq_true_2 ("Expired" ∈ q)).
  - intros Hp He Hx Hs.
    rewrite (bool_decide_eq_false_2 ("Not Sent" ∈ q)) by tauto.
    rewrite (bool_decide_eq_false_2 ("Sending" ∈ q)) by tauto.
    rewrite (bool_decide_eq_false_2 ("Error" ∈ q)) by done.
    rewrite (bool_decide_eq_false_2 ("Expired" ∈ q)) by done.
    by rewrite (bool_decide_eq_true_2 ("Sent" ∈ q)).
  - intros Hp He Hx Hs.
    rewrite (bool_decide_eq_false_2 ("Not Sent" ∈ q)) by tauto.
    rewrite (bool_decide_eq_false_2 ("Sending" ∈ q)) by tauto.
    rewrite (bool_decide_eq_false_2 ("Error" ∈ q)) by done.
    rewrite (bool_decide_eq_false_2 ("Expired" ∈ q)) by done.
    by rewrite (bool_decide_eq_false_2 ("Sent" ∈ q)).
Qed.

(** X24: [set_delivery_status] either does nothing at all, or it writes
    one of the four delivery statuses to [delivery_status] and to no other
    attribute, publishes the updated document to the reference, notifies
    the update, in this order, and commits last and only when [commit] is
    set. *)
Theorem set_delivery_status_effects (email_queue : string → list string)
    (commit : bool) (d : CommunicationDoc) :
  set_delivery_status email_queue commit d = (d, [])
  ∨ ∃ v, v ∈ ["Sending"; "Error"; "Expired"; "Sent"]
         ∧ set_delivery_status email_queue commit d
           = (set_delivery_status_field v d,
              [DbSet "delivery_status" v;
               PublishRealtime "update_communication"
                 (as_dict (set_delivery_status_field v d))
                 (reference_doctype (fields d)) (reference_name (fields d))
                 "" true;
               NotifyUpdate]
              ++ (if commit then [DbCommit] else [])).
Proof.
  destruct (decide (sent_or_received d = "Received")) as [Hr|Hr].
  { left. unfold set_delivery_status. by rewrite bool_decide_eq_true_2. }
  rewrite (set_delivery_status_chosen email_queue commit d Hr).
  set (q := email_queue (name (fields d))).
  destruct (bool_decide ("Not Sent" ∈ q) || bool_decide ("Sending" ∈ q)).
  { right. exists "Sending". split; [set_solver|done]. }
  destruct (bool_decide ("Error" ∈ q)).
  { right. exists "Error". split; [set_solver|done]. }
  destruct (bool_decide ("Expired" ∈ q)).
  { right. exists "Expired". split; [set_solver|done]. }
  destruct (bool_decide ("Sent" ∈ q)).
  { right. exists "Sent". split; [set_solver|done]. }
  by left.
Qed.

Lemma set_delivery_status_received_witness :
  let d := mkCommunicationDoc
             (mkCommunication "COMM-3" "Lead" "LEAD-1" "" "Communication" [])
             "Email" "Received" "a@example.com" "" "Open" "" "" in
  set_delivery_status (λ _, ["Sent"; "Error"]) true d = (d, []).
Proof.
  intros d. by apply set_delivery_status_received.
Defined.

Lemma set_delivery_status_priority_witness :
  let d := mkCommunicationDoc
             (mkCommunication "COMM-3" "Lead" "LEAD-1" "" "Communication" [])
             "Email" "Sent" "a@example.com" "" "Open" "" "" in
  delivery_status
    (set_delivery_status (λ _, ["Sent"; "Error"; "Sent"]) false d).1
  = "Error".
Proof.
  intros d.
  destruct (set_delivery_status_priority (λ _, ["Sent"; "Error"; "Sent"])
              false d) as (_ & Herror & _); [discriminate|].
  apply Herror.
  - apply (bool_decide_unpack _). vm_compute. exact I.
  - apply (bool_decide_unpack _). vm_compute. exact I.
Defined.

(** ** [after_insert] *)

(** X25: [after_insert] marks the referenced Communication as Replied
    exactly when the new record has a complete reference to a
    Communication and was sent; it writes nothing else to the database. *)
Theorem after_insert_replied (session_user : string) (d : CommunicationDoc) :
  filter (λ e, is_publish e = false) (after_insert session_user d)
  = if bool_decide (reference_doctype (fields d) = "Communication"
                    ∧ reference_name (fields d) ≠ ""
                    ∧ sent_or_received d = "Sent")
    then [DbSetValue "Communication" (reference_name (fields d))
            "status" "Replied"]
    else [].
Proof.
  unfold after_insert, truthy.
  repeat (case_bool_decide; simpl);
    first [by vm_compute | exfalso; intuition congruence].
Qed.

(** X26: [after_insert] publishes at most one realtime event, and none
    exactly when the reference is incomplete or the communication type is
    none of Communication, Chat, Notification and Bot. *)
Theorem after_insert_publishes (session_user : string) (d : CommunicationDoc) :
  let published := filter (λ e, is_publish e = true)
                     (after_insert session_user d) in
  length published ≤ 1
  ∧ (published = []
     ↔ reference_doctype (fields d) = ""
       ∨ reference_name (fields d) = ""
       ∨ communication_type (fields d)
           ∉ ["Communication"; "Chat"; "Notification"; "Bot"]).
Proof.
  intros published. subst published. unfold after_insert, truthy.
  assert (Hin : communication_type (fields d) = "Communication" →
                communication_type (fields d)
                  ∈ ["Communication"; "Chat"; "Notification"; "Bot"])
    by (intros ->; set_solver).
  assert (Hsub : communication_type (fields d)
                   ∈ ["Chat"; "Notification"; "Bot"] →
                 communication_type (fields d)
                   ∈ ["Communication"; "Chat"; "Notification"; "Bot"])
    by set_solver.
  assert (Hsplit : communication_type (fields d)
                     ∈ ["Communication"; "Chat"; "Notification"; "Bot"] →
                   communication_type (fields d) = "Communication"
                   ∨ communication_type (fields d)
                       ∈ ["Chat"; "Notification"; "Bot"])
    by set_solver.
  repeat (case_bool_decide; simpl); (split; [lia|]); naive_solver.
Qed.

(** X27: every event [after_insert] publishes is published after commit
    and carries the new record.  An event with a target user is no
    broadcast and its target is the addressee, who is not the user of the
    session; a broadcast has no target and is made only for a message
    addressed to the user of the session. *)
Theorem after_insert_addressing (session_user : string) (d : CommunicationDoc)
    (event : string) (message : Payload) (doctype docname user : string)
    (after_commit : bool) :
  PublishRealtime event message doctype docname user after_commit
    ∈ after_insert session_user d →
  after_commit = true
  ∧ body message = d
  ∧ (user ≠ "" →
     broadcast message = false
     ∧ user = reference_name (fields d) ∧ user ≠ session_user)
  ∧ (broadcast message = true →
     user = "" ∧ doctype = "" ∧ docname = ""
     ∧ reference_name (fields d) = session_user).
Proof.
  unfold after_insert, truthy.
  repeat (case_bool_decide; simpl);
    rewrite ?elem_of_cons, ?elem_of_nil; naive_solver.
Qed.

Lemma after_insert_addressing_witness :
  let d := mkCommunicationDoc
             (mkCommunication "COMM-4" "User" "mary@example.com" ""
                "Chat" [])
             "Chat" "Sent" "john@example.com" "" "" "" "" in
  broadcast (as_dict d) = false
  ∧ "mary@example.com" = reference_name (fields d)
  ∧ "mary@example.com" ≠ "john@example.com".
Proof.
  intros d.
  destruct (after_insert_addressing "john@example.com" d "new_message"
              (as_dict d) "" "" "mary@example.com" true)
    as (_ & _ & Htarget & _).
  - vm_compute. apply list_elem_of_here.
  - by apply Htarget.
Defined.

(** ** [set_status] *)

(** X28: [set_status] leaves a saved document alone.  On a new document
    the status becomes Linked exactly when the reference is complete, else
    Open for a Communication and Closed for the other types; the email
    status becomes Spam only for a sent email Communication whose sender
    has a spam rule, and is kept otherwise; nothing else changes. *)
Theorem set_status_cases (spam_rule : string → bool) (d : CommunicationDoc) :
  set_status false spam_rule d = d
  ∧ let d' := set_status true spam_rule d in
    let complete := reference_doctype (fields d) ≠ ""
                    ∧ reference_name (fields d) ≠ "" in
    (status d' = "Linked" ↔ complete)
    ∧ (status d' = "Open"
       ↔ ¬ complete ∧ communication_type (fields d) = "Communication")
    ∧ (status d' = "Closed"
       ↔ ¬ complete ∧ communication_type (fields d) ≠ "Communication")
    ∧ (email_status d'
       = if bool_decide (communication_type (fields d) = "Communication"
                         ∧ communication_medium d = "Email"
                         ∧ sent_or_received d = "Sent"
                         ∧ spam_rule (sender d) = true)
         then "Spam" else email_status d)
    ∧ set_email_status (email_status d) (set_status_field (status d) d') = d.
Proof.
  split; [done|]. unfold set_status, truthy. simpl.
  destruct (spam_rule (sender d)) eqn:Hrule;
    repeat (case_bool_decide; simpl); rewrite ?Hrule; simpl;
    (split_and!; [naive_solver..|by destruct d]).
Qed.

(** ** [on_trash] *)

(** X29: for a Communication without a complete reference [after_insert]
    published nothing, while [on_trash] still publishes its
    delete_communication event, addressed to the incomplete reference. *)
Theorem on_trash_without_reference (session_user : string)
    (d : CommunicationDoc) :
  communication_type (fields d) = "Communication" →
  reference_doctype (fields d) = "" ∨ reference_name (fields d) = "" →
  after_insert session_user d = []
  ∧ on_trash d
    = [PublishRealtime "delete_communication" (as_dict d)
         (reference_doctype (fields d)) (reference_name (fields d)) "" true].
Proof.
  intros Htype Hnone. split.
  - unfold after_insert.
    destruct Hnone as [Hnone|Hnone]; rewrite (truthy_false _ Hnone);
      by rewrite ?andb_false_r.
  - unfold on_trash. by rewrite bool_decide_eq_true_2.
Qed.

Lemma on_trash_without_reference_witness :
  let d := mkCommunicationDoc
             (mkCommunication "COMM-5" "" "" "" "Communication" [])
             "Email" "Received" "a@example.com" "" "Open" "" "" in
  after_insert "Administrator" d = []
  ∧ on_trash d
    = [PublishRealtime "delete_communication" (as_dict d) "" "" "" true].
Proof.
  intros d. apply (on_trash_without_reference "Administrator" d).
  - reflexivity.
  - by left.
Defined.

(** ** [set_sender_full_name] *)

(** X30: for a sender other than Administrator and Guest that passes the
    address check, [set_sender_full_name] sets [sender] to the parsed
    address.  When the user of the session is Administrator the full name
    is left empty, whatever name the address carries; for any other user
    it is the parsed name, unless that is missing or equal to the address,
    in which case it is the full name of the user of the session. *)
Theorem set_sender_full_name_parsed (session_user : string)
    (administrator_full_name administrator_email : string)
    (validate_email_address : string → Result unit)
    (parse_addr : string → string * string)
    (get_fullname : string → string) (d : CommunicationDoc) :
  sender_full_name d = "" →
  sender d ≠ "" → sender d ≠ "Administrator" → sender d ≠ "Guest" →
  (sent_or_received d = "Sent" → validate_email_address (sender d) = Ok tt) →
  ∃ d',
    set_sender_full_name session_user administrator_full_name
      administrator_email validate_email_address parse_addr get_fullname d
    = Ok d'
    ∧ sender d' = (parse_addr (sender d)).2
    ∧ set_sender (sender d) (set_sender_full_name_field "" d') = d
    ∧ (session_user = "Administrator" → sender_full_name d' = "")
    ∧ (session_user ≠ "Administrator" →
       sender_full_name d'
       = if bool_decide ((parse_addr (sender d)).1 ≠ ""
                         ∧ (parse_addr (sender d)).1
                           ≠ (parse_addr (sender d)).2)
         then (parse_addr (sender d)).1
         else get_fullname session_user).
Proof.
  intros Hfull Hsender Hadmin Hguest Hvalid.
  unfold set_sender_full_name, truthy.
  rewrite Hfull. rewrite (bool_decide_eq_true_2 (sender d ≠ "")) by done.
  rewrite (bool_decide_eq_false_2 (sender d = "Administrator")) by done.
  rewrite (bool_decide_eq_false_2 (sender d = "Guest")) by done.
  cbn [negb andb bool_decide decide_rel].
  assert (Hcheck : (if bool_decide (sent_or_received d = "Sent")
                    then validate_email_address (sender d) else Ok tt)
                   = Ok tt).
  { case_bool_decide; [by apply Hvalid|done]. }
  simpl. rewrite Hcheck. cbn [bind].
  destruct (parse_addr (sender d)) as [sender_name sender_email].
  eexists. split; [done|]. simpl.
  split_and!.
  - done.
  - destruct d. simpl in *. by subst.
  - intros ->. by rewrite bool_decide_eq_false_2 by tauto.
  - intros Hs. rewrite (bool_decide_eq_true_2 (session_user ≠ _)) by done.
    repeat case_bool_decide; naive_solver.
Qed.

Lemma set_sender_full_name_parsed_witness :
  let d := mkCommunicationDoc
             (mkCommunication "COMM-6" "" "" "" "Communication" [])
             "Email" "Received" "Mary <mary@example.com>" "" "" "" "" in
  ∃ d',
    set_sender_full_name "Administrator" "Admin" "admin@example.com"
      (λ _, Ok tt) (λ _, ("Mary", "mary@example.com")) (λ _, "Admin") d
    = Ok d'
    ∧ sender d' = "mary@example.com"
    ∧ sender_full_name d' = "".
Proof.
  intros d.
  destruct (set_sender_full_name_parsed "Administrator" "Admin"
              "admin@example.com" (λ _, Ok tt)
              (λ _, ("Mary", "mary@example.com")) (λ _, "Admin") d)
    as (d' & Hd' & Hsender & _ & Hadmin & _);
    [reflexivity|discriminate|discriminate|discriminate|done|].
  exists d'. split_and!; [exact Hd'|exact Hsender|by apply Hadmin].
Defined.
